(** * Universal Website Scraper: a shallow embedding of [src/scraper.py]

    The scraper fetches a page (statically, then through a headless browser),
    extracts its metadata, and cuts its markup into typed, bounded sections.
    This development embeds [Scraper] function by function, with the
    endpoint of [src/app.py] that calls it, and proves the properties its
    specification states about it.

    Conventions.
    - A Python [str] is a [string]; characters are 7-bit ASCII as far as
      [lower], [capitalize] and [isspace] are concerned.
    - A Python value that may be [None] is an [option].
    - The libraries the scraper calls (the HTML parser, the HTTP client, the
      browser driver, [urljoin]) are not part of the program.  The parsed tree
      is modelled as data; what the libraries compute from the outside world
      is a [Variable] of the section that uses it. *)

From Stdlib Require Import String Ascii List Arith NArith Bool Lia.
From Stdlib Require Import Decimal DecimalNat DecimalString.
Import ListNotations.
Open Scope string_scope.
Open Scope nat_scope.
Set Warnings "-register-all".

(* ================================================================= *)
(** ** Python string operations *)

Module Py.

(** [c.isspace()] on ASCII: TAB, LF, VT, FF, CR, FS, GS, RS, US, SPACE. *)
Definition isspace (c : ascii) : bool :=
  let n := nat_of_ascii c in
  ((9 <=? n) && (n <=? 13)) || ((28 <=? n) && (n <=? 32)).

Definition lower_char (c : ascii) : ascii :=
  let n := nat_of_ascii c in
  if (65 <=? n) && (n <=? 90) then ascii_of_nat (n + 32) else c.

Definition upper_char (c : ascii) : ascii :=
  let n := nat_of_ascii c in
  if (97 <=? n) && (n <=? 122) then ascii_of_nat (n - 32) else c.

(** [s.lower()] *)
Fixpoint lower (s : string) : string :=
  match s with
  | EmptyString => EmptyString
  | String c s' => String (lower_char c) (lower s')
  end.

(** [s.capitalize()] *)
Definition capitalize (s : string) : string :=
  match s with
  | EmptyString => EmptyString
  | String c s' => String (upper_char c) (lower s')
  end.

Fixpoint rev_acc (s acc : string) : string :=
  match s with
  | EmptyString => acc
  | String c s' => rev_acc s' (String c acc)
  end.

Definition rev (s : string) : string := rev_acc s EmptyString.

Fixpoint lstrip (s : string) : string :=
  match s with
  | EmptyString => EmptyString
  | String c s' => if isspace c then lstrip s' else s
  end.

Definition rstrip (s : string) : string := rev (lstrip (rev s)).

(** [s.strip()] *)
Definition strip (s : string) : string := rstrip (lstrip s).

(** [len(s)]; Python integers that count characters are binary naturals. *)
Definition len (s : string) : N := N.of_nat (String.length s).

Fixpoint take_nat (n : nat) (s : string) : string :=
  match n, s with
  | S n', String c s' => String c (take_nat n' s')
  | _, _ => EmptyString
  end.

(** [s[:n]] *)
Definition take (n : N) (s : string) : string := take_nat (N.to_nat n) s.

(** [needle in s] *)
Fixpoint contains (needle s : string) : bool :=
  String.prefix needle s ||
  match s with
  | EmptyString => false
  | String _ s' => contains needle s'
  end.

(** [s.split()]: the maximal runs of non-space characters. [cur] is the word
    being read, reversed. *)
Fixpoint split_acc (s cur : string) : list string :=
  match s with
  | EmptyString =>
      match cur with EmptyString => [] | _ => [rev cur] end
  | String c s' =>
      if isspace c
      then match cur with
           | EmptyString => split_acc s' EmptyString
           | _ => rev cur :: split_acc s' EmptyString
           end
      else split_acc s' (String c cur)
  end.

Definition split (s : string) : list string := split_acc s EmptyString.

(** [sep.join(l)] *)
Definition join (sep : string) (l : list string) : string := String.concat sep l.

(** [re.sub(r'\s+', ' ', s)]: every maximal run of whitespace becomes one
    space. [in_run] tells that the previous character was whitespace. *)
Fixpoint collapse_ws (in_run : bool) (s : string) : string :=
  match s with
  | EmptyString => EmptyString
  | String c s' =>
      if isspace c
      then if in_run then collapse_ws true s'
           else String " " (collapse_ws true s')
      else String c (collapse_ws false s')
  end.

Definition re_sub_ws (s : string) : string := collapse_ws false s.

(** [str(n)] for a non-negative [int]. *)
Definition str_of_nat (n : nat) : string :=
  NilEmpty.string_of_uint (Nat.to_uint n).

(** Truth value of a [str] that may be [None]: [None] and the empty string are false. *)
Definition truthy (v : option string) : bool :=
  match v with
  | Some (String _ _) => true
  | _ => false
  end.

(** [d.get(k)] on a dict whose values may be [None]. *)
Fixpoint dict_lookup (k : string) (d : list (string * option string))
  : option (option string) :=
  match d with
  | [] => None
  | (k', v) :: d' => if String.eqb k k' then Some v else dict_lookup k d'
  end.

Definition get (k : string) (d : list (string * option string))
  : option string :=
  match dict_lookup k d with
  | Some v => v
  | None => None
  end.

(** [d.get(k, default)] *)
Definition get_default (k default : string) (d : list (string * option string))
  : option string :=
  match dict_lookup k d with
  | Some v => v
  | None => Some default
  end.

End Py.

(* ================================================================= *)
(** ** The parsed tree (selectolax) *)

(** A node is a text node or an element.  An attribute written without a
    value ([<input disabled>]) has the value [None]. *)
Inductive Node : Type :=
| TextNode (data : string)
| Element (tag : string) (attributes : list (string * option string))
          (children : list Node).

Definition tag (n : Node) : string :=
  match n with
  | TextNode _ => "-text"
  | Element t _ _ => t
  end.

Definition attributes (n : Node) : list (string * option string) :=
  match n with
  | TextNode _ => []
  | Element _ a _ => a
  end.

Definition children (n : Node) : list Node :=
  match n with
  | TextNode _ => []
  | Element _ _ cs => cs
  end.

Definition is_element (n : Node) : bool :=
  match n with
  | TextNode _ => false
  | Element _ _ _ => true
  end.

(** [node.text()] with its defaults ([deep=True], empty separator, no
    stripping): the text nodes below the node, concatenated in document
    order. *)
Fixpoint text (n : Node) : string :=
  match n with
  | TextNode d => d
  | Element _ _ cs => String.concat EmptyString (map text cs)
  end.

(** The CSS selectors the scraper uses: a comma-separated group of
    - [t]             a tag name,
    - [[a*=v]]        attribute [a] has a value containing [v],
    - [t[a=v]]        tag [t] and attribute [a] has exactly the value [v].
    Attribute values are compared as written, as CSS prescribes for
    selectors without the [i] flag. *)
Inductive simple_selector : Type :=
| SelTag (t : string)
| SelAttrContains (a v : string)
| SelTagAttrEq (t a v : string).

Definition selector := list simple_selector.

Definition matches_simple (s : simple_selector) (n : Node) : bool :=
  match n with
  | TextNode _ => false
  | Element t attrs _ =>
      match s with
      | SelTag t' => String.eqb t t'
      | SelAttrContains a v =>
          match Py.get a attrs with
          | Some x => Py.contains v x
          | None => false
          end
      | SelTagAttrEq t' a v =>
          String.eqb t t' &&
          match Py.get a attrs with
          | Some x => String.eqb x v
          | None => false
          end
      end
  end.

Definition matches (sel : selector) (n : Node) : bool :=
  existsb (fun s => matches_simple s n) sel.

(** The nodes of a subtree in document order, the root of the subtree first,
    each with its parent ([node.parent]). *)
Fixpoint walk (parent : option Node) (n : Node) : list (Node * option Node) :=
  (n, parent) ::
  match n with
  | TextNode _ => []
  | Element _ _ cs => flat_map (fun c => walk (Some n) c) cs
  end.

(** [node.css(sel)]: the matching elements of the subtree, the node
    itself included, in document order. *)
Definition css_from (parent : option Node) (sel : selector) (n : Node)
  : list (Node * option Node) :=
  filter (fun np => matches sel (fst np)) (walk parent n).

Definition css (sel : selector) (n : Node) : list Node :=
  map fst (css_from None sel n).

(** [node.css_first(sel)] *)
Definition css_first (sel : selector) (n : Node) : option Node :=
  hd_error (css sel n).

(** [node.decompose()] for every node matching [sel] in the subtree: the
    matching elements disappear with everything below them. *)
Fixpoint prune (sel : selector) (n : Node) : Node :=
  match n with
  | TextNode d => TextNode d
  | Element t a cs =>
      Element t a
        ((fix prune_all (l : list Node) : list Node :=
            match l with
            | [] => []
            | c :: l' =>
                if matches sel c then prune_all l'
                else prune sel c :: prune_all l'
            end) cs)
  end.

Fixpoint prune_all (sel : selector) (l : list Node) : list Node :=
  match l with
  | [] => []
  | c :: l' =>
      if matches sel c then prune_all sel l'
      else prune sel c :: prune_all sel l'
  end.

(** The tree an [HTMLParser] object holds: its [html] element, or nothing
    once that element has been deleted.  [body] is read off the tree: a
    document without a [body] element (a frameset document), or one whose
    [body] has been deleted, has none. *)
Record Tree : Type := mkTree { root : option Node }.

(** The document node, parent of the [html] element. *)
Definition document_node (p : Tree) : Node :=
  Element "-undef" [] (match root p with Some r => [r] | None => [] end).

Definition has_tag (t : string) (n : Node) : bool := String.eqb (tag n) t.

(** [parser.body] *)
Definition body (p : Tree) : option Node :=
  match root p with
  | Some r => find (has_tag "body") (children r)
  | None => None
  end.

(** [parser.css(sel)], each element with its parent. *)
Definition parser_css_from (sel : selector) (p : Tree)
  : list (Node * option Node) :=
  match root p with
  | Some r => css_from (Some (document_node p)) sel r
  | None => []
  end.

(** [parser.css(sel)] *)
Definition parser_css (sel : selector) (p : Tree) : list Node :=
  map fst (parser_css_from sel p).

(** [parser.css_first(sel)] *)
Definition parser_css_first (sel : selector) (p : Tree) : option Node :=
  hd_error (parser_css sel p).

(** [for elem in parser.css(sel): elem.decompose()] *)
Definition decompose_matching (p : Tree) (sel : selector) : Tree :=
  match root p with
  | Some r => if matches sel r then mkTree None else mkTree (Some (prune sel r))
  | None => p
  end.

(** The nodes of the tree, in document order. *)
Definition tree_nodes (p : Tree) : list Node :=
  match root p with
  | Some r => map fst (walk (Some (document_node p)) r)
  | None => []
  end.

(* ================================================================= *)
(** ** Exceptions *)

(** The two classes of exception the scraper tells apart, with [str(e)]. *)
Inductive exn : Type :=
| PlaywrightTimeoutError (msg : string)
| Exception (msg : string).

Definition str_exn (e : exn) : string :=
  match e with
  | PlaywrightTimeoutError m => m
  | Exception m => m
  end.

Inductive result (A : Type) : Type :=
| Ok (a : A)
| Raise (e : exn).

Arguments Ok {A} a.
Arguments Raise {A} e.

Definition rbind {A B} (r : result A) (k : A -> result B) : result B :=
  match r with
  | Ok a => k a
  | Raise e => Raise e
  end.

Notation "x <-- r ;; k" := (rbind r (fun x => k))
  (at level 61, r at next level, right associativity).

(* ================================================================= *)
(** ** The result document *)

Record Link : Type := mkLink { link_text : string; href : string }.

Record Image : Type := mkImage { src : string; alt : option string }.

Record Content : Type := mkContent {
  headings : list string;
  content_text : string;
  links : list Link;
  images : list Image;
  lists : list (list string);
  tables : list (list (list string))
}.

Record Section : Type := mkSection {
  id : string;
  type : string;
  label : string;
  sourceUrl : string;
  content : Content;
  rawHtml : string;
  truncated : bool
}.

Record Meta : Type := mkMeta {
  title : string;
  description : string;
  language : string;
  canonical : option string
}.

Inductive Phase : Type := fetch | render.

Record ScrapeError : Type := mkError { message : string; phase : Phase }.

Record Interactions : Type := mkInteractions {
  clicks : list string;
  scrolls : nat;
  pages : list string
}.

Record ScrapeResult : Type := mkResult {
  url : string;
  scrapedAt : string;
  meta : Meta;
  sections : list Section;
  interactions : Interactions;
  errors : list ScrapeError
}.

(* ================================================================= *)
(** ** Selectors of the static path *)

Definition tags (l : list string) : selector := map SelTag l.

Definition sel_landmarks : selector :=
  tags ["header"; "nav"; "main"; "section"; "footer"; "article"].
Definition sel_h1_h3 : selector := tags ["h1"; "h2"; "h3"].
Definition sel_h1_h6 : selector := tags ["h1"; "h2"; "h3"; "h4"; "h5"; "h6"].

(** [noise_selectors] of [_parse_sections], in the order of the source. *)
Definition noise_selectors : list selector :=
  [ [SelAttrContains "class" "cookie"];
    [SelAttrContains "class" "banner"];
    [SelAttrContains "class" "modal"];
    [SelAttrContains "class" "popup"];
    [SelAttrContains "class" "overlay"];
    [SelAttrContains "id" "cookie"];
    [SelAttrContains "id" "banner"];
    [SelAttrContains "id" "modal"];
    [SelAttrContains "id" "popup"] ].

(* ================================================================= *)
(** ** The state and exception monad of the browser-driven half *)

(** A computation reads and changes a state and returns or raises; the state
    survives an exception, as the locals and the browser do in Python. *)
Definition M (S A : Type) : Type := S -> result A * S.

Definition ret {S A} (a : A) : M S A := fun s => (Ok a, s).

Definition bind {S A B} (m : M S A) (k : A -> M S B) : M S B :=
  fun s =>
    match m s with
    | (Ok a, s') => k a s'
    | (Raise e, s') => (Raise e, s')
    end.

Notation "x <- m ;; k" := (bind m (fun x => k))
  (at level 61, m at next level, right associativity).
Notation "' pat <- m ;; k" := (bind m (fun x => match x with pat => k end))
  (at level 61, pat pattern, m at next level, right associativity).
Notation "m >> k" := (bind m (fun _ => k))
  (at level 61, right associativity).

(** [try: m  except ... as e: h e] *)
Definition try_except {S A} (m : M S A) (h : exn -> M S A) : M S A :=
  fun s =>
    match m s with
    | (Ok a, s') => (Ok a, s')
    | (Raise e, s') => h e s'
    end.

(** [try: m  except: pass] *)
Definition try_pass {S} (m : M S unit) : M S unit :=
  try_except m (fun _ => ret tt).

(** A pure computation that may raise. *)
Definition lift_result {S A} (r : result A) : M S A := fun s => (r, s).

(** [for x in l: body x] *)
Fixpoint for_each {S A} (l : list A) (body : A -> M S unit) : M S unit :=
  match l with
  | [] => ret tt
  | x :: l' => body x >> for_each l' body
  end.

(** Locals [L] next to the world [W]: a world computation leaves the locals
    alone, and a block with locals runs from their initial values. *)
Definition lift {L W A} (m : M W A) : M (L * W) A :=
  fun s =>
    match m (snd s) with
    | (r, w') => (r, (fst s, w'))
    end.

Definition locals {L W} : M (L * W) L := fun s => (Ok (fst s), s).

Definition set_locals {L W} (f : L -> L) : M (L * W) unit :=
  fun s => (Ok tt, (f (fst s), snd s)).

Definition with_locals {L W A} (l : L) (m : M (L * W) A) : M W A :=
  fun w =>
    match m (l, w) with
    | (r, s') => (r, snd s')
    end.

(* ================================================================= *)
(** ** [class Scraper] *)

Section Scraper.

(** [HTMLParser(html)], [urljoin(base, ref)] and [elem.html]. *)
Variable HTMLParser : string -> Tree.
Variable urljoin : string -> string -> string.
Variable html_of : Node -> string.

(** [elem.attributes.get(k, default).lower()] with the empty string as
    default: the value of a valueless attribute is [None], which has no
    [lower]. *)
Definition lower_attr (k : string) (elem : Node) : result string :=
  match Py.get_default k EmptyString (attributes elem) with
  | Some v => Ok (Py.lower v)
  | None => Raise (Exception "'NoneType' object has no attribute 'lower'")
  end.

Definition _determine_type (tag_name : string) (elem : Node) : result string :=
  let tag_lower := Py.lower tag_name in
  class_attr <-- lower_attr "class" elem ;;
  id_attr <-- lower_attr "id" elem ;;
  let has (w : string) := Py.contains w class_attr || Py.contains w id_attr in
  Ok (if String.eqb tag_lower "header" || has "header" then "nav"
      else if String.eqb tag_lower "nav" || has "nav" then "nav"
      else if String.eqb tag_lower "footer" || has "footer" then "footer"
      else if String.eqb tag_lower "article" then "section"
      else if has "hero" ||
              (String.eqb tag_lower "section" &&
               Py.contains "hero" (class_attr ++ id_attr))
           then "hero"
      else if has "faq" then "faq"
      else if has "pricing" then "pricing"
      else if has "grid" then "grid"
      else if has "list" then "list"
      else "section").

Definition nonempty (s : string) : bool :=
  match s with EmptyString => false | _ => true end.

Definition stripped_text (n : Node) : string := Py.strip (text n).

Definition _derive_label (elem : Node) : string :=
  match find nonempty (map stripped_text (css sel_h1_h3 elem)) with
  | Some label => Py.take 50%N label
  | None =>
      let words := firstn 7 (Py.split (stripped_text elem)) in
      match words with
      | _ :: _ =>
          let label := Py.join " " words in
          if (50 <? Py.len label)%N then Py.take 50%N label else label
      | [] => Py.capitalize (Py.lower (tag elem))
      end
  end.

(** The loops of [_extract_section], each before its cap. *)
Definition section_headings (elem : Node) : list string :=
  filter nonempty (map stripped_text (css sel_h1_h6 elem)).

Definition section_text (elem : Node) : string :=
  Py.re_sub_ws (stripped_text elem).

Definition section_links (base_url : string) (elem : Node) : list Link :=
  flat_map
    (fun link =>
       match Py.get_default "href" EmptyString (attributes link) with
       | Some (String c h) =>
           [mkLink (stripped_text link) (urljoin base_url (String c h))]
       | _ => []
       end)
    (css (tags ["a"]) elem).

Definition section_images (base_url : string) (elem : Node) : list Image :=
  flat_map
    (fun img =>
       match Py.get_default "src" EmptyString (attributes img) with
       | Some (String c s) =>
           [mkImage (urljoin base_url (String c s))
                    (Py.get_default "alt" EmptyString (attributes img))]
       | _ => []
       end)
    (css (tags ["img"]) elem).

Definition section_lists (elem : Node) : list (list string) :=
  filter (fun items => negb (Nat.eqb (List.length items) 0))
    (map (fun ul_ol =>
            filter nonempty (map stripped_text (css (tags ["li"]) ul_ol)))
         (css (tags ["ul"; "ol"]) elem)).

Definition section_tables (elem : Node) : list (list (list string)) :=
  filter (fun t => negb (Nat.eqb (List.length t) 0))
    (map (fun table =>
            filter (fun r => negb (Nat.eqb (List.length r) 0))
              (map (fun row => map stripped_text (css (tags ["td"; "th"]) row))
                   (css (tags ["tr"]) table)))
         (css (tags ["table"]) elem)).

(** [elem] is [None] where the source can pass [None] ([heading.parent]). *)
Definition _extract_section (elem : option Node) (base_url : string) (idx : nat)
  : result (option Section) :=
  match elem with
  | None => Ok None
  | Some elem =>
      let tag_name := Py.lower (tag elem) in
      section_type <-- _determine_type tag_name elem ;;
      let label := _derive_label elem in
      let headings := section_headings elem in
      let text := section_text elem in
      let links := section_links base_url elem in
      let images := section_images base_url elem in
      let lists := section_lists elem in
      let tables := section_tables elem in
      let raw_html := html_of elem in
      let '(raw_html, truncated) :=
        if (2000 <? Py.len raw_html)%N
        then ((Py.take 2000%N raw_html ++ "...")%string, true)
        else (raw_html, false) in
      Ok (Some
        {| id := (section_type ++ "-" ++ Py.str_of_nat idx)%string;
           type := section_type;
           label := label;
           sourceUrl := base_url;
           content :=
             {| headings := firstn 10 headings;
                content_text :=
                  if (5000 <? Py.len text)%N then Py.take 5000%N text
                  else text;
                links := firstn 50 links;
                images := firstn 20 images;
                lists := firstn 10 lists;
                tables := tables |};
           rawHtml := raw_html;
           truncated := truncated |})
  end.

(** The section [_parse_sections] returns for empty markup. *)
Definition empty_section (base_url : string) : Section :=
  {| id := "empty-0";
     type := "unknown";
     label := "Empty Content";
     sourceUrl := base_url;
     content :=
       {| headings := []; content_text := EmptyString; links := []; images := [];
          lists := []; tables := [] |};
     rawHtml := EmptyString;
     truncated := false |}.

(** [for idx, elem in enumerate(elems): ...append...], [idx] starting at
    [start]; the first exception ends the loop. *)
Fixpoint extract_all (elems : list (option Node)) (base_url : string)
  (start : nat) : result (list Section) :=
  match elems with
  | [] => Ok []
  | elem :: rest =>
      section <-- _extract_section elem base_url start ;;
      sections <-- extract_all rest base_url (S start) ;;
      Ok (match section with
          | Some s => s :: sections
          | None => sections
          end)
  end.

Definition remove_noise (parser : Tree) : Tree :=
  fold_left decompose_matching noise_selectors parser.

Definition is_nil {A} (l : list A) : bool :=
  match l with [] => true | _ => false end.

(** The elements [_parse_sections] cuts the tree at, before the cap. *)
Definition section_elements (parser : Tree) : list (option Node) :=
  let elems := map Some (parser_css sel_landmarks parser) in
  let elems :=
    if is_nil elems then map snd (parser_css_from sel_h1_h3 parser)
    else elems in
  if is_nil elems
  then match body parser with Some b => [Some b] | None => [] end
  else elems.

Definition _parse_sections (html base_url : string)
  : result (list Section) :=
  if negb (nonempty html) || negb (nonempty (Py.strip html))
  then Ok [empty_section base_url]
  else
    let parser := remove_noise (HTMLParser html) in
    sections <-- extract_all (firstn 20 (section_elements parser)) base_url 0 ;;
    if is_nil sections
    then match body parser with
         | Some b =>
             section <-- _extract_section (Some b) base_url 0 ;;
             Ok (match section with Some s => [s] | None => [] end)
         | None => Ok []
         end
    else Ok sections.

Definition _has_main_content (html : string) : bool :=
  let parser := HTMLParser html in
  match parser_css_first (tags ["main"]) parser with
  | Some main => (100 <? Py.len (stripped_text main))%N
  | None =>
      match parser_css_first (tags ["article"]) parser with
      | Some article => (100 <? Py.len (stripped_text article))%N
      | None => false
      end
  end.

Definition default_meta : Meta :=
  {| title := EmptyString; description := EmptyString; language := "en"; canonical := None |}.

(** [tag.attributes.get(k)] when it is a non-empty string. *)
Definition attr_if_set (k : string) (n : option Node) : option string :=
  match n with
  | Some n =>
      match Py.get k (attributes n) with
      | Some (String c v) => Some (String c v)
      | _ => None
      end
  | None => None
  end.

Definition set_title (v : string) (m : Meta) : Meta :=
  {| title := v; description := description m; language := language m;
     canonical := canonical m |}.
Definition set_description (v : string) (m : Meta) : Meta :=
  {| title := title m; description := v; language := language m;
     canonical := canonical m |}.
Definition set_language (v : string) (m : Meta) : Meta :=
  {| title := title m; description := description m; language := v;
     canonical := canonical m |}.
Definition set_canonical (v : string) (m : Meta) : Meta :=
  {| title := title m; description := description m; language := language m;
     canonical := Some v |}.

(** [if o: meta = f(o, meta)] *)
Definition when_some {A} (o : option A) (f : A -> Meta -> Meta) (m : Meta)
  : Meta :=
  match o with Some a => f a m | None => m end.

Definition _extract_meta_static (html : string) : Meta :=
  let parser := HTMLParser html in
  let meta := default_meta in
  (* Title *)
  let title_tag := parser_css_first (tags ["title"]) parser in
  let meta := when_some title_tag (fun t => set_title (stripped_text t)) meta in
  let og_title :=
    parser_css_first [SelTagAttrEq "meta" "property" "og:title"] parser in
  let meta := when_some (attr_if_set "content" og_title) set_title meta in
  (* Description *)
  let desc_tag :=
    parser_css_first [SelTagAttrEq "meta" "name" "description"] parser in
  let meta := when_some (attr_if_set "content" desc_tag) set_description meta in
  let og_desc :=
    parser_css_first [SelTagAttrEq "meta" "property" "og:description"] parser in
  let meta := when_some (attr_if_set "content" og_desc) set_description meta in
  (* Language *)
  let html_tag := parser_css_first (tags ["html"]) parser in
  let meta :=
    when_some (attr_if_set "lang" html_tag)
      (fun lang => set_language (Py.take 2%N lang)) meta in
  (* Canonical *)
  let canonical := parser_css_first [SelTagAttrEq "link" "rel" "canonical"] parser in
  when_some (attr_if_set "href" canonical) set_canonical meta.

(** *** The outside world

    [World] is the state of everything outside the program: the network, the
    browser and its current page.  Each operation is the library call of the
    same name on [self]'s page; [new_page] is [get_browser()] followed by
    [browser.new_page()], [http_get] is the [httpx] request with
    [raise_for_status()] and [response.text].  [asyncio.sleep] is not
    modelled. *)
Variable World : Type.
Variable Handle : Type.
Variable utcnow_iso : World -> string.
Variable http_get : string -> M World string.
Variable new_page : M World unit.
Variable page_goto : string -> M World unit.
Variable page_content : M World string.
Variable page_title : M World string.
Variable page_get_attribute : string -> string -> M World (option string).
Variable page_close : M World unit.
Variable page_evaluate : string -> M World unit.
Variable page_query_selector : string -> M World (option Handle).
Variable page_query_selector_all : string -> M World (list Handle).
Variable handle_click : Handle -> M World unit.
Variable handle_get_attribute : Handle -> string -> M World (option string).

(** Truth value of a string that may be [None], as in [if desc:]. *)
Definition attr_if_truthy (v : option string) : option string :=
  if Py.truthy v then v else None.

Definition dq : string := String (ascii_of_nat 34) EmptyString.

(** The selectors of [_extract_meta_js], as Playwright receives them. *)
Definition sel_meta_description : string :=
  ("meta[name=" ++ dq ++ "description" ++ dq ++ "]")%string.
Definition sel_link_canonical : string :=
  ("link[rel=" ++ dq ++ "canonical" ++ dq ++ "]")%string.

Definition _static_scrape (url : string) : M World (string * Meta) :=
  html <- http_get url ;;
  let meta := _extract_meta_static html in
  ret (html, meta).

(** [try: v = await m; if v: meta = f(v, meta)  except: pass] *)
Definition try_field {S A} (m : M S (option A)) (f : A -> Meta -> Meta)
  (meta : Meta) : M S Meta :=
  try_except (v <- m ;; ret (when_some v f meta)) (fun _ => ret meta).

Definition _extract_meta_js : M World Meta :=
  let meta := default_meta in
  meta <- try_except (t <- page_title ;; ret (set_title t meta))
            (fun _ => ret meta) ;;
  meta <- try_field
            (desc <- page_get_attribute sel_meta_description "content" ;;
             ret (attr_if_truthy desc))
            set_description meta ;;
  meta <- try_field
            (lang <- page_get_attribute "html" "lang" ;;
             ret (attr_if_truthy lang))
            (fun lang => set_language (Py.take 2%N lang)) meta ;;
  try_field
    (canonical <- page_get_attribute sel_link_canonical "href" ;;
     ret (attr_if_truthy canonical))
    set_canonical meta.

(** What the two render paths return: [html, meta, errors, interactions]. *)
Definition Rendered : Type :=
  (string * Meta * list ScrapeError * Interactions)%type.

(** [try: html = content(); meta = _extract_meta_js(page)
     except: html = EmptyString; meta = _extract_meta_static(EmptyString)] *)
Definition harvest {S} (lift_w : forall A, M World A -> M S A)
  : M S (string * Meta) :=
  try_except
    (html <- lift_w _ page_content ;;
     meta <- lift_w _ _extract_meta_js ;;
     ret (html, meta))
    (fun _ => ret (EmptyString, _extract_meta_static EmptyString)).

Definition _js_scrape (url : string) : M World Rendered :=
  let errors : list ScrapeError := [] in
  let interactions := {| clicks := []; scrolls := 0; pages := [url] |} in
  new_page >>
  try_except
    (page_goto url >>
     html <- page_content ;;
     meta <- _extract_meta_js ;;
     page_close >>
     ret (html, meta, errors, interactions))
    (fun e =>
       match e with
       | PlaywrightTimeoutError m =>
           let errors :=
             (errors ++ [mkError ("Timeout waiting for page load: " ++ m)%string render])%list in
           html <- page_content ;;
           meta <- _extract_meta_js ;;
           page_close >>
           ret (html, meta, errors, interactions)
       | Exception m =>
           let errors :=
             (errors ++ [mkError ("JS rendering error: " ++ m)%string render])%list in
           '(html, meta) <- harvest (fun _ m => m) ;;
           page_close >>
           ret (html, meta, errors, interactions)
       end).

(** The locals of [_js_scrape_for_interactions] that its handler reads. *)
Record Locals : Type := mkLocals {
  l_clicks : list string;
  l_scrolls : nat;
  pages_visited : list string
}.

Definition append_click (sel : string) (l : Locals) : Locals :=
  mkLocals (l_clicks l ++ [sel]) (l_scrolls l) (pages_visited l).
Definition incr_scrolls (l : Locals) : Locals :=
  mkLocals (l_clicks l) (l_scrolls l + 1) (pages_visited l).
Definition append_page (u : string) (l : Locals) : Locals :=
  mkLocals (l_clicks l) (l_scrolls l) (pages_visited l ++ [u]).

Definition interactions_of (l : Locals) : Interactions :=
  {| clicks := l_clicks l; scrolls := l_scrolls l; pages := pages_visited l |}.

Definition sel_tabs : string :=
  ("[role=" ++ dq ++ "tab" ++ dq ++ "], .tab, [data-tab]")%string.
Definition sel_role_tab : string :=
  ("[role=" ++ dq ++ "tab" ++ dq ++ "]")%string.
Definition has_text (t what : string) : string :=
  (t ++ ":has-text(" ++ dq ++ what ++ dq ++ ")")%string.
Definition class_contains (what : string) : string :=
  ("[class*=" ++ dq ++ what ++ dq ++ "]")%string.

Definition load_more_selectors : list string :=
  [ has_text "button" "Load more";
    has_text "button" "Show more";
    has_text "button" "Load More";
    has_text "a" "Load more";
    class_contains "load-more";
    class_contains "show-more" ].

Definition sel_next : string :=
  (has_text "a" "Next" ++ ", " ++ has_text "a" "next" ++ ", [rel=" ++ dq
   ++ "next" ++ dq ++ "]")%string.

Definition scroll_script : string :=
  "window.scrollTo(0, document.body.scrollHeight)".

Definition mem (u : string) (l : list string) : bool :=
  existsb (String.eqb u) l.

Let IM := M (Locals * World).
Let w {A} (m : M World A) : IM A := lift m.

(** [for tab in tabs[:3]: try: click, append  except: pass] *)
Definition click_tabs (tabs : list Handle) : IM unit :=
  for_each (firstn 3 tabs)
    (fun tab =>
       try_pass (w (handle_click tab) >> set_locals (append_click sel_role_tab))).

(** [for selector in load_more_selectors: try: ... break  except: pass] *)
Fixpoint click_load_more (selectors : list string) : IM unit :=
  match selectors with
  | [] => ret tt
  | selector :: rest =>
      clicked <-
        try_except
          (button <- w (page_query_selector selector) ;;
           match button with
           | Some b =>
               w (handle_click b) >>
               set_locals (append_click selector) >>
               ret true
           | None => ret false
           end)
          (fun _ => ret false) ;;
      if clicked : bool then ret tt else click_load_more rest
  end.

(** One round of [for i in range(3)]. *)
Definition scroll_round (url : string) (i : nat) : IM unit :=
  w (page_evaluate scroll_script) >>
  set_locals incr_scrolls >>
  next_links <- w (page_query_selector_all sel_next) ;;
  match next_links with
  | first :: _ =>
      if i <? 2
      then
        try_pass
          (next_url <- w (handle_get_attribute first "href") ;;
           match next_url with
           | Some (String c u) =>
               let full_url := urljoin url (String c u) in
               l <- locals ;;
               if negb (mem full_url (pages_visited l))
               then set_locals (append_page full_url) >>
                    w (page_goto full_url)
               else ret tt
           | _ => ret tt
           end)
      else ret tt
  | [] => ret tt
  end.

Definition _js_scrape_for_interactions (url : string) : M World Rendered :=
  let errors : list ScrapeError := [] in
  new_page >>
  with_locals (mkLocals [] 0 [url])
    (try_except
       (w (page_goto url) >>
        tabs <- w (page_query_selector_all sel_tabs) ;;
        click_tabs tabs >>
        click_load_more load_more_selectors >>
        for_each [0; 1; 2] (scroll_round url) >>
        html <- w page_content ;;
        meta <- w _extract_meta_js ;;
        l <- locals ;;
        let interactions := interactions_of l in
        w page_close >>
        ret (html, meta, errors, interactions))
       (fun e =>
          let errors :=
            (errors ++ [mkError ("Interaction error: " ++ str_exn e)%string render])%list in
          '(html, meta) <- harvest (fun _ m => w m) ;;
          l <- locals ;;
          let interactions := interactions_of l in
          w page_close >>
          ret (html, meta, errors, interactions))).

(** The condition under which [scrape] asks for a plain render:
    [len(text_content.strip()) < 200 or not self._has_main_content(html)]. *)
Definition needs_full_render (html : string) : bool :=
  let parser := HTMLParser html in
  let text_content :=
    match body parser with Some b => text b | None => EmptyString end in
  (Py.len (Py.strip text_content) <? 200)%N
  || negb (_has_main_content html).

(** [errors.extend(js_errors); interactions.update(js_interactions)] *)
Definition merge (errors : list ScrapeError) (r : Rendered) : Rendered :=
  match r with
  | (html, meta, js_errors, js_interactions) =>
      (html, meta, (errors ++ js_errors)%list, js_interactions)
  end.

(** The [except Exception as e] branch of [scrape]: the static scrape, or the
    render that followed it, raised [e]. *)
Definition scrape_fallback (url : string) (e : exn) : M World Rendered :=
  let interactions := {| clicks := []; scrolls := 0; pages := [url] |} in
  let errors :=
    [mkError ("Static scrape failed: " ++ str_exn e)%string fetch] in
  try_except
    (r <- _js_scrape url ;; ret (merge errors r))
    (fun e2 =>
       let errors :=
         (errors ++ [mkError ("JS scrape failed: " ++ str_exn e2)%string render])%list in
       ret (EmptyString, _extract_meta_static EmptyString, errors,
            interactions)).

(** The [try ... except] statement of [scrape]: what it leaves in [html],
    [meta], [errors] and [interactions]. *)
Definition scrape_fetch (url : string) : M World Rendered :=
  let errors : list ScrapeError := [] in
  try_except
    ('(html, meta) <- _static_scrape url ;;
     if needs_full_render html
     then r <- _js_scrape url ;; ret (merge errors r)
     else r <- _js_scrape_for_interactions url ;; ret (merge errors r))
    (scrape_fallback url).

Definition scrape (url : string) : M World ScrapeResult :=
  fun w0 =>
    let scraped_at := utcnow_iso w0 in
    ('(html, meta, errors, interactions) <- scrape_fetch url ;;
     sections <- lift_result (_parse_sections html url) ;;
     ret {| url := url;
            scrapedAt := scraped_at;
            meta := meta;
            sections := sections;
            interactions := interactions;
            errors := errors |}) w0.

End Scraper.

(* ================================================================= *)
(** ** A simulated site, to run the scraper on

    The properties below hold for every parser, serializer and world.  To run
    the scraper on concrete pages, this module gives one instance of each: a
    site is a table of pages, each with its markup, the tree the parser
    builds from that markup, and the target of its "next" link. *)

Module Sim.

Record Page : Type := mkPage {
  page_url : string;
  markup : string;
  tree : Tree;
  next_href : option string
}.

Record World : Type := mkWorld {
  site : list Page;
  online : bool;        (* the network answers *)
  browser_up : bool;    (* the browser can be launched *)
  current : option Page (* where the browser page is *)
}.

Definition el (t : string) (cs : list Node) : Node := Element t [] cs.

(** What an HTML5 parser builds from markup without content. *)
Definition blank_tree : Tree :=
  mkTree (Some (el "html" [el "head" []; el "body" []])).

Definition find_markup (s : list Page) (html : string) : option Page :=
  find (fun p => String.eqb (markup p) html) s.

Definition find_url (s : list Page) (u : string) : option Page :=
  find (fun p => String.eqb (page_url p) u) s.

(** The parser, on the markup of the site's pages. *)
Definition HTMLParser (s : list Page) (html : string) : Tree :=
  match find_markup s html with
  | Some p => tree p
  | None => blank_tree
  end.

(** [urljoin] on absolute references and on absolute paths. *)
Definition urljoin (base ref : string) : string :=
  if String.prefix "http" ref then ref else (base ++ ref)%string.

Definition attr_html (kv : string * option string) : string :=
  match kv with
  | (k, Some v) => (" " ++ k ++ "=" ++ dq ++ v ++ dq)%string
  | (k, None) => (" " ++ k)%string
  end.

(** A plain serializer. *)
Fixpoint html_of (n : Node) : string :=
  match n with
  | TextNode d => d
  | Element t a cs =>
      ("<" ++ t ++ String.concat EmptyString (map attr_html a) ++ ">"
       ++ String.concat EmptyString (map html_of cs)
       ++ "</" ++ t ++ ">")%string
  end.

Definition Handle : Type := string.

Definition utcnow_iso (_ : World) : string := "2024-01-01T00:00:00+00:00".

Definition http_get (u : string) : M World string :=
  fun w =>
    if online w
    then match find_url (site w) u with
         | Some p => (Ok (markup p), w)
         | None => (Raise (Exception "404 Not Found"), w)
         end
    else (Raise (Exception "All connection attempts failed"), w).

Definition new_page : M World unit :=
  fun w =>
    if browser_up w then (Ok tt, w)
    else (Raise (Exception "Executable does not exist"), w).

Definition page_goto (u : string) : M World unit :=
  fun w =>
    if online w
    then match find_url (site w) u with
         | Some p =>
             (Ok tt, mkWorld (site w) (online w) (browser_up w) (Some p))
         | None => (Raise (Exception "net::ERR_ABORTED"), w)
         end
    else (Raise (Exception "net::ERR_NAME_NOT_RESOLVED"), w).

Definition current_tree (w : World) : Tree :=
  match current w with Some p => tree p | None => blank_tree end.

Definition page_content : M World string :=
  fun w =>
    (Ok (match current w with
         | Some p => markup p
         | None => "<html><head></head><body></body></html>"
         end), w).

Definition page_title : M World string :=
  fun w =>
    (Ok (match parser_css_first (tags ["title"]) (current_tree w) with
         | Some t => Py.strip (text t)
         | None => EmptyString
         end), w).

(** The selectors [_extract_meta_js] passes, read as selectors on the tree. *)
Definition read_selector (s : string) : selector :=
  if String.eqb s sel_meta_description
  then [SelTagAttrEq "meta" "name" "description"]
  else if String.eqb s sel_link_canonical
  then [SelTagAttrEq "link" "rel" "canonical"]
  else [SelTag s].

Definition page_get_attribute (s name : string) : M World (option string) :=
  fun w =>
    match parser_css_first (read_selector s) (current_tree w) with
    | Some n => (Ok (Py.get name (attributes n)), w)
    | None => (Raise (PlaywrightTimeoutError "Timeout 30000ms exceeded"), w)
    end.

Definition page_close : M World unit := ret tt.

Definition page_evaluate (_ : string) : M World unit := ret tt.

Definition page_query_selector (_ : string) : M World (option Handle) :=
  ret None.

Definition page_query_selector_all (s : string) : M World (list Handle) :=
  fun w =>
    (Ok (if String.eqb s sel_next
         then match current w with
              | Some p =>
                  match next_href p with Some h => [h] | None => [] end
              | None => []
              end
         else []), w).

Definition handle_click (_ : Handle) : M World unit := ret tt.

Definition handle_get_attribute (h : Handle) (name : string)
  : M World (option string) :=
  ret (if String.eqb name "href" then Some h else None).

(** The scraper on a simulated site. *)
Definition parse_sections (s : list Page)
  : string -> string -> result (list Section) :=
  _parse_sections (HTMLParser s) urljoin html_of.

Definition extract_meta_static (s : list Page) : string -> Meta :=
  _extract_meta_static (HTMLParser s).

Definition extract_meta_js : M World Meta :=
  _extract_meta_js World page_title page_get_attribute.

Definition js_scrape (s : list Page) : string -> M World Rendered :=
  _js_scrape (HTMLParser s) World new_page page_goto page_content page_title
    page_get_attribute page_close.

Definition js_scrape_for_interactions (s : list Page)
  : string -> M World Rendered :=
  _js_scrape_for_interactions (HTMLParser s) urljoin World Handle new_page
    page_goto page_content page_title page_get_attribute page_close
    page_evaluate page_query_selector page_query_selector_all handle_click
    handle_get_attribute.

Definition static_scrape (s : list Page) : string -> M World (string * Meta) :=
  _static_scrape (HTMLParser s) World http_get.

Definition fetch (s : list Page) : string -> M World Rendered :=
  scrape_fetch (HTMLParser s) urljoin World Handle http_get new_page
    page_goto page_content page_title page_get_attribute page_close
    page_evaluate page_query_selector page_query_selector_all handle_click
    handle_get_attribute.

Definition run (s : list Page) : string -> M World ScrapeResult :=
  scrape (HTMLParser s) urljoin html_of World Handle utcnow_iso http_get
    new_page page_goto page_content page_title page_get_attribute page_close
    page_evaluate page_query_selector page_query_selector_all handle_click
    handle_get_attribute.

End Sim.

(* ================================================================= *)
(** ** Sample pages *)

Module Examples.
Import Sim.

Fixpoint repeat_string (s : string) (n : nat) : string :=
  match n with
  | 0 => EmptyString
  | S n' => (s ++ repeat_string s n')%string
  end.

Definition document (head_nodes body_nodes : list Node) : Tree :=
  mkTree (Some (el "html" [el "head" head_nodes; el "body" body_nodes])).

(** A frameset document: an HTML5 parser gives it no [body]. *)
Definition frameset_page : Page :=
  {| page_url := "http://frames.example/";
     markup := "<html><head></head><frameset></frameset></html>";
     tree := mkTree (Some (el "html" [el "head" []; el "frameset" []]));
     next_href := None |}.

Definition long_text : string := repeat_string "lorem ipsum " 20.

(** A short [main] followed by a long [article]. *)
Definition article_page : Page :=
  {| page_url := "http://blog.example/";
     markup :=
       ("<html><head></head><body><main>hi</main><article>" ++ long_text
        ++ "</article></body></html>")%string;
     tree :=
       document []
         [el "main" [TextNode "hi"]; el "article" [TextNode long_text]];
     next_href := None |}.

(** A long [main]: the page is adequate as fetched. *)
Definition main_page : Page :=
  {| page_url := "http://docs.example/";
     markup :=
       ("<html><head></head><body><main>" ++ long_text
        ++ "</main></body></html>")%string;
     tree := document [] [el "main" [TextNode long_text]];
     next_href := None |}.

(** A page whose [og:title] differs from its [title]. *)
Definition og_page : Page :=
  {| page_url := "http://og.example/";
     markup :=
       "<html><head><title>Plain</title><meta property='og:title' content='Social'></head><body></body></html>";
     tree :=
       document
         [el "title" [TextNode "Plain"];
          Element "meta"
            [("property", Some "og:title"); ("content", Some "Social")] []]
         [];
     next_href := None |}.

(** A [main] whose serialization is longer than 2000 characters. *)
Definition big_main : Node := el "main" [TextNode (repeat_string "a" 2001)].

(** A page without landmarks or headings that carries an overlay named by
    its [id] and a cookie notice with a capitalised class name. *)
Definition overlay : Node :=
  Element "div" [("id", Some "overlay")] [TextNode "Subscribe now! "].

Definition notice : Node :=
  Element "div" [("class", Some "Cookie-Banner")] [TextNode "We use cookies. "].

Definition notice_page : Page :=
  {| page_url := "http://shop.example/about";
     markup :=
       "<html><head></head><body><div id='overlay'>Subscribe now! </div><div class='Cookie-Banner'>We use cookies. </div><p>About us</p></body></html>";
     tree := document [] [overlay; notice; el "p" [TextNode "About us"]];
     next_href := None |}.



(** A catalogue of four pages, each linking to the next, the last one back
    to the first. *)
Definition catalogue_page (u next : string) : Page :=
  {| page_url := u;
     markup :=
       ("<html><head></head><body><main>" ++ long_text ++ u
        ++ "</main></body></html>")%string;
     tree := document [] [el "main" [TextNode (long_text ++ u)]];
     next_href := Some next |}.

Definition catalogue : list Page :=
  [ catalogue_page "http://shop.example/1" "http://shop.example/2";
    catalogue_page "http://shop.example/2" "http://shop.example/3";
    catalogue_page "http://shop.example/3" "http://shop.example/4";
    catalogue_page "http://shop.example/4" "http://shop.example/1" ].

(** A section whose [class] attribute has no value. *)
Definition valueless_page : Page :=
  {| page_url := "http://bare.example/";
     markup :=
       "<html><head></head><body><section class>News</section></body></html>";
     tree :=
       document [] [Element "section" [("class", None)] [TextNode "News"]];
     next_href := None |}.

(** A section with a heading, an empty heading, a list with an empty item,
    an empty list, a table with an empty row, and links and images with and
    without a target. *)
Definition rich_section : Node :=
  Element "section" [("class", Some "Pricing-Grid")]
    [ el "h2" [TextNode " Plans "];
      el "h3" [TextNode "   "];
      el "ul" [el "li" [TextNode "Free"]; el "li" []; el "li" [TextNode "Pro"]];
      el "ol" [el "li" [TextNode " "]];
      el "table"
        [ el "tr" [el "th" [TextNode "Plan"]; el "th" [TextNode "Price"]];
          el "tr" [];
          el "tr" [el "td" [TextNode "Pro"]; el "td" []] ];
      Element "a" [("href", Some "/buy")] [TextNode "Buy   now"];
      Element "a" [("href", Some EmptyString)] [TextNode "nowhere"];
      Element "a" [("href", None)] [TextNode "valueless"];
      Element "img" [("src", Some "/logo.png")] [];
      Element "img" [("alt", Some "no source")] [] ].

(** Two headings in one container, on a page without landmarks. *)
Definition chapter : Node :=
  el "div" [ el "h1" [TextNode "Guide"]; el "p" [TextNode "Intro"];
             el "h2" [TextNode "Setup"]; el "p" [TextNode "Steps"] ].

Definition headings_page : Page :=
  {| page_url := "http://guide.example/";
     markup :=
       "<html><head></head><body><div><h1>Guide</h1><p>Intro</p><h2>Setup</h2><p>Steps</p></div></body></html>";
     tree := document [] [chapter];
     next_href := None |}.

(** Two pages that link to each other. *)
Definition pair_of_pages : list Page :=
  [ catalogue_page "http://shop.example/a" "http://shop.example/b";
    catalogue_page "http://shop.example/b" "http://shop.example/a" ].

Definition up (s : list Page) : World := mkWorld s true true None.
Definition unreachable (s : list Page) : World := mkWorld s false false None.

End Examples.

(** A page that is still loading when the navigation times out. *)
Module SlowSim.

Definition page_goto (_ : string) : M Sim.World unit :=
  fun w => (Raise (PlaywrightTimeoutError "Timeout 30000ms exceeded"), w).

Definition js_scrape (s : list Sim.Page) : string -> M Sim.World Rendered :=
  _js_scrape (Sim.HTMLParser s) Sim.World Sim.new_page page_goto
    Sim.page_content Sim.page_title Sim.page_get_attribute Sim.page_close.

(** The browser page already shows [p]. *)
Definition showing (p : Sim.Page) : Sim.World :=
  Sim.mkWorld [p] true true (Some p).

End SlowSim.

(* ================================================================= *)
(** ** Predicates used in the statements *)

(** The [class] or [id] attribute of the element, when present, has a
    value. *)
Definition has_value (k : string) (elem : Node) : bool :=
  match Py.dict_lookup k (attributes elem) with
  | Some None => false
  | _ => true
  end.

Fixpoint has_dash (s : string) : bool :=
  match s with
  | EmptyString => false
  | String c s' => Ascii.eqb c "-" || has_dash s'
  end.

(** The markup is empty or whitespace: the test that opens
    [_parse_sections]. *)
Definition blank (html : string) : bool :=
  negb (nonempty html) || negb (nonempty (Py.strip html)).

(** The first element with the given tag, in document order. *)
Definition first_element (t : string) (p : Tree) : option Node :=
  find (fun n => is_element n && has_tag t n) (tree_nodes p).

(** The element holds more than 100 characters of stripped text. *)
Definition substantial (n : Node) : bool :=
  (100 <? Py.len (Py.strip (text n)))%N.

(** "Has main content" in the words of the specification: a [main] or
    [article] landmark contains more than 100 characters of text. *)
Definition some_main_or_article_substantial (p : Tree) : bool :=
  existsb substantial (parser_css (tags ["main"; "article"]) p).

(** "Has main content" as [_has_main_content] computes it: the first [main]
    decides; without a [main], the first [article] does. *)
Definition first_main_else_article_substantial (p : Tree) : bool :=
  match first_element "main" p with
  | Some main => substantial main
  | None =>
      match first_element "article" p with
      | Some article => substantial article
      | None => false
      end
  end.

(** The stripped text of the [body] is shorter than 200 characters. *)
Definition body_text_short (p : Tree) : bool :=
  (Py.len (Py.strip (match body p with
                     | Some b => text b
                     | None => EmptyString
                     end)) <? 200)%N.

(** No node of the tree carries an attribute and none is a [title]: the tree
    of markup without content. *)
Definition bare (p : Tree) : bool :=
  forallb (fun n => is_nil (attributes n) && negb (has_tag "title" n))
    (tree_nodes p).

(** The nodes of a subtree, in document order. *)
Definition subnodes (n : Node) : list Node := map fst (walk None n).




(** [m] is the pruning of a node of the subtree [n] which, unless it is [n]
    itself, does not match [sel]. *)
Definition pruned_from (sel : selector) (n m : Node) : Prop :=
  exists m0,
    In m0 (subnodes n) /\ m = prune sel m0 /\
    (m0 = n \/ matches sel m0 = false).

(** [m], run on locals that satisfy [P], leaves locals that satisfy [Q]
    whether it returns or raises, and returns only values that satisfy
    [V]. *)
Definition triple {W A} (P : Locals -> Prop) (m : M (Locals * W) A)
  (Q : Locals -> Prop) (V : A -> Prop) : Prop :=
  forall l w,
    P l ->
    Q (fst (snd (m (l, w)))) /\ (forall a, fst (m (l, w)) = Ok a -> V a).

(** The list of visited pages starts with [url0], repeats no page and holds
    at most [k] pages. *)
Definition pages_ok (url0 : string) (k : nat) (visited : list string) : Prop :=
  hd_error visited = Some url0 /\ NoDup visited /\ List.length visited <= k.

Definition any {A} (_ : A) : Prop := True.

(* ================================================================= *)
(** ** Further predicates: classification and extracted content *)

(** The section types [_determine_type] can choose. *)
Definition section_types : list string :=
  ["nav"; "footer"; "section"; "hero"; "faq"; "pricing"; "grid"; "list"].

(** The attributes with every value in lower case. *)
Definition lower_values (a : list (string * option string))
  : list (string * option string) :=
  map (fun kv => (fst kv, option_map Py.lower (snd kv))) a.

(** The only whitespace is the space, and no two spaces are adjacent;
    [after_space] tells that the previous character was a space. *)
Fixpoint single_spaced (after_space : bool) (s : string) : bool :=
  match s with
  | EmptyString => true
  | String c s' =>
      if Py.isspace c
      then Ascii.eqb c " " && negb after_space && single_spaced true s'
      else single_spaced false s'
  end.

(** The target comes from a non-empty reference resolved against [base]. *)
Definition resolved_from (urljoin : string -> string -> string)
  (base target : string) : Prop :=
  exists ref, nonempty ref = true /\ target = urljoin base ref.



(** The language is one or two characters long and the canonical link, when
    there is one, is not empty. *)
Definition meta_ok (m : Meta) : Prop :=
  (1 <= Py.len (language m) <= 2)%N /\ canonical m <> Some EmptyString.

(** An error log of at most one entry, of the render phase. *)
Definition render_log (errs : list ScrapeError) : Prop :=
  List.length errs <= 1 /\ Forall (fun e => phase e = render) errs.

(** The interaction log a render without interactions reports. *)
Definition no_interactions (url0 : string) : Interactions :=
  {| clicks := []; scrolls := 0; pages := [url0] |}.

(** At most [c] clicks and [k] scrolls. *)
Definition counts (c k : nat) (l : Locals) : Prop :=
  List.length (l_clicks l) <= c /\ l_scrolls l <= k.

(** A page with four tabs, the second of which cannot be clicked, and a
    load-more button found by its class. *)
Module BusySim.

Definition page_query_selector (s : string) : M Sim.World (option Sim.Handle) :=
  ret (if String.eqb s (class_contains "load-more") then Some "more"
       else None).

Definition page_query_selector_all (s : string)
  : M Sim.World (list Sim.Handle) :=
  if String.eqb s sel_tabs then ret ["t1"; "t2"; "t3"; "t4"]
  else Sim.page_query_selector_all s.

Definition handle_click (h : Sim.Handle) : M Sim.World unit :=
  fun w =>
    if String.eqb h "t2"
    then (Raise (PlaywrightTimeoutError "Timeout 5000ms exceeded"), w)
    else (Ok tt, w).

Definition js_scrape_for_interactions (s : list Sim.Page)
  : string -> M Sim.World Rendered :=
  _js_scrape_for_interactions (Sim.HTMLParser s) Sim.urljoin Sim.World
    Sim.Handle Sim.new_page Sim.page_goto Sim.page_content Sim.page_title
    Sim.page_get_attribute Sim.page_close Sim.page_evaluate
    page_query_selector page_query_selector_all handle_click
    Sim.handle_get_attribute.

End BusySim.

(** The shape of an error log of [scrape]: at most one fetch-phase error,
    first, then at most one render-phase error. *)
Definition error_log_ok (errs : list ScrapeError) : Prop :=
  exists pre js,
    errs = (pre ++ js)%list /\
    (pre = [] \/ exists msg, pre = [mkError msg fetch]) /\
    render_log js.

(** What holds of every rendered outcome [scrape] goes on with. *)
Definition rendered_ok (url0 : string) (r : Rendered) : Prop :=
  pages_ok url0 3 (pages (snd r)) /\
  List.length (clicks (snd r)) <= 4 /\ scrolls (snd r) <= 3 /\
  error_log_ok (snd (fst r)) /\ meta_ok (snd (fst (fst r))).

(* ================================================================= *)
(** ** Further predicates: noise, the click log *)

(** No node of the tree matches a noise selector. *)
Definition noise_free (p : Tree) : bool :=
  forallb (fun n => negb (existsb (fun sel => matches sel n) noise_selectors))
    (tree_nodes p).

(** The shape of a click log: the tab marker, up to three times, then at most
    one of the load-more selectors. *)
Definition click_log (cl : list string) : Prop :=
  exists k more,
    k <= 3 /\ cl = (repeat sel_role_tab k ++ more)%list /\
    (more = [] \/ exists s, In s load_more_selectors /\ more = [s]).

(** [m], run on locals that satisfy [P], returns a value and locals that
    satisfy [Q], or raises and leaves locals that satisfy [E]. *)
Definition ends {W A} (P : Locals -> Prop) (m : M (Locals * W) A)
  (Q : A -> Locals -> Prop) (E : Locals -> Prop) : Prop :=
  forall l w,
    P l ->
    match m (l, w) with
    | (Ok a, s) => Q a (fst s)
    | (Raise _, s) => E (fst s)
    end.

(** Tab markers only, at most [c] of them, and no scroll yet. *)
Definition tabs_only (c : nat) (l : Locals) : Prop :=
  (exists k, k <= c /\ l_clicks l = repeat sel_role_tab k) /\ l_scrolls l = 0.

(** A click log and [n] scrolls. *)
Definition scrolled (n : nat) (l : Locals) : Prop :=
  click_log (l_clicks l) /\ l_scrolls l = n.

Definition logged (l : Locals) : Prop := click_log (l_clicks l).

(** What the two ends of [_js_scrape_for_interactions] report: a click log,
    and either no error and three scrolls, or the one error of the
    handler. *)
Definition reported (r : Rendered) : Prop :=
  click_log (clicks (snd r)) /\
  (snd (fst r) = [] /\ scrolls (snd r) = 3 \/
   exists e,
     snd (fst r)
     = [mkError ("Interaction error: " ++ str_exn e)%string render]).

(* ================================================================= *)
(** ** The browser session of [class Scraper] *)

(** The fields [__init__] sets, each [None] at first. *)
Record Scraper {Browser Page Playwright : Type} : Type := mkScraper {
  browser : option Browser;
  page : option Page;
  playwright : option Playwright
}.
Arguments Scraper : clear implicits.
Arguments mkScraper {Browser Page Playwright}.

Section Session.

Variable World : Type.
Variables Browser Page Playwright : Type.
(** [async_playwright().start()], [playwright.chromium.launch(headless=True)]
    and the three calls of [cleanup]. *)
Variable playwright_start : M World Playwright.
Variable chromium_launch : Playwright -> M World Browser.
Variable close_page : Page -> M World unit.
Variable browser_close : Browser -> M World unit.
Variable playwright_stop : Playwright -> M World unit.

Local Abbreviation Self := (Scraper Browser Page Playwright).

Definition init : Self := mkScraper None None None.

Definition set_browser (b : Browser) (self : Self) : Self :=
  mkScraper (Some b) (page self) (playwright self).

Definition set_playwright (p : Playwright) (self : Self) : Self :=
  mkScraper (browser self) (page self) (Some p).

Definition get_browser : M (Self * World) Browser :=
  self <- locals ;;
  match browser self with
  | None =>
      p <- lift playwright_start ;;
      set_locals (set_playwright p) >>
      b <- lift (chromium_launch p) ;;
      set_locals (set_browser b) >>
      ret b
  | Some b => ret b
  end.

(** [if x: await x.close()] *)
Definition if_set {A} (x : option A) (close : A -> M World unit)
  : M (Self * World) unit :=
  match x with
  | Some a => lift (close a)
  | None => ret tt
  end.

Definition cleanup : M (Self * World) unit :=
  self <- locals ;;
  if_set (page self) close_page >>
  if_set (browser self) browser_close >>
  if_set (playwright self) playwright_stop.

End Session.

(** A world that logs the calls of the session; the browser can be launched
    or not. *)
Module LaunchSim.

Record World : Type := mkWorld {
  launchable : bool;
  started : nat;
  log : list string
}.

Definition say (what : string) (w : World) : World :=
  mkWorld (launchable w) (started w) (log w ++ [what]).

Definition playwright_start : M World nat :=
  fun w =>
    (Ok (started w),
     mkWorld (launchable w) (S (started w)) (log w ++ ["start"])).

Definition chromium_launch (p : nat) : M World nat :=
  fun w =>
    if launchable w then (Ok p, say "launch" w)
    else (Raise (Exception "Executable does not exist"), w).

Definition close_page (_ : unit) : M World unit :=
  fun w => (Ok tt, say "page.close" w).

Definition browser_close (_ : nat) : M World unit :=
  fun w => (Ok tt, say "browser.close" w).

Definition playwright_stop (p : nat) : M World unit :=
  fun w => (Ok tt, say ("stop " ++ Py.str_of_nat p) w).

Definition get_browser : M (Scraper nat unit nat * World) nat :=
  get_browser World nat unit nat playwright_start chromium_launch.

Definition cleanup : M (Scraper nat unit nat * World) unit :=
  cleanup World nat unit nat close_page browser_close playwright_stop.

End LaunchSim.

(* ================================================================= *)
(** ** The endpoint of [src/app.py] *)

(** What the body of the handler raises: the [HTTPException] of the handler
    itself, or what [scrape_url] raised.  Both are exceptions in the sense
    of [except Exception]. *)
Inductive raised : Type :=
| HTTPException (status_code : N) (detail : string)
| ScraperError (e : exn).

(** How a handler ends. *)
Inductive outcome (A : Type) : Type :=
| Returned (a : A)
| Raised (e : raised).
Arguments Returned {A}.
Arguments Raised {A}.

(** [s.startswith(prefixes)], [prefixes] a tuple *)
Definition startswith (s : string) (prefixes : list string) : bool :=
  existsb (fun p => String.prefix p s) prefixes.

Section App.

Variable World : Type.
Variable scrape_url : string -> M World ScrapeResult.
(** [str(e)] for an [HTTPException]. *)
Variable str_http : N -> string -> string.

Definition str_raised (e : raised) : string :=
  match e with
  | HTTPException status_code detail => str_http status_code detail
  | ScraperError e => str_exn e
  end.

(** The [try] block of the handler. *)
Definition scrape_body (request_url : string)
  : World -> outcome ScrapeResult * World :=
  fun w =>
    if negb (startswith request_url ["http://"; "https://"])
    then (Raised
            (HTTPException 400 "Only http:// and https:// URLs are supported"),
          w)
    else
      match scrape_url request_url w with
      | (Ok result, w') => (Returned result, w')
      | (Raise e, w') => (Raised (ScraperError e), w')
      end.

(** [POST /scrape]: the result under the key [result], or the exception of
    the [except] clause. *)
Definition scrape_endpoint (request_url : string)
  : World -> outcome ScrapeResult * World :=
  fun w =>
    match scrape_body request_url w with
    | (Returned result, w') => (Returned result, w')
    | (Raised e, w') => (Raised (HTTPException 500 (str_raised e)), w')
    end.

End App.

(* ================================================================= *)
(** ** Lemmas on strings *)

Lemma take_nat_length (n : nat) (s : string) :
  String.length (Py.take_nat n s) = Nat.min n (String.length s).
Proof.
  revert s; induction n as [|n IH]; intros [|c s]; simpl; auto.
Qed.

Lemma take_len (n : N) (s : string) :
  Py.len (Py.take n s) = N.min n (Py.len s).
Proof.
  unfold Py.len, Py.take; rewrite take_nat_length; lia.
Qed.

Lemma take_len_le (n : N) (s : string) : (Py.len (Py.take n s) <= n)%N.
Proof. rewrite take_len; lia. Qed.

Lemma append_length (s t : string) :
  String.length (s ++ t) = String.length s + String.length t.
Proof. induction s as [|c s IH]; simpl; auto. Qed.

Lemma append_len (s t : string) :
  Py.len (s ++ t) = (Py.len s + Py.len t)%N.
Proof. unfold Py.len; rewrite append_length; lia. Qed.

(* ================================================================= *)
(** ** The string operations and the classifier on examples *)

Example split_words :
  Py.split "  one two   three " = ["one"; "two"; "three"].
Proof. reflexivity. Qed.

Example strip_keeps_inner_space : Py.strip "  a  b  " = "a  b".
Proof. reflexivity. Qed.

Example collapse_whitespace : Py.re_sub_ws "a   b  c" = "a b c".
Proof. reflexivity. Qed.

Example str_of_seventeen : Py.str_of_nat 17 = "17".
Proof. reflexivity. Qed.

(** A section of class [faq-section] is of type [faq]. *)
Example faq_section_type :
  _determine_type "section"
    (Element "section" [("class", Some "faq-section")] []) = Ok "faq".
Proof. reflexivity. Qed.

(** The first matching rule wins: [header] comes before [hero]. *)
Example header_before_hero :
  _determine_type "div"
    (Element "div" [("class", Some "hero"); ("id", Some "page-header")] [])
  = Ok "nav".
Proof. reflexivity. Qed.

(** A [class] attribute without a value makes the classifier raise. *)
Example valueless_class_raises :
  _determine_type "section" (Element "section" [("class", None)] [])
  = Raise (Exception "'NoneType' object has no attribute 'lower'").
Proof. reflexivity. Qed.

Example label_from_first_words :
  _derive_label
    (Element "div" [] [TextNode " one two  three four five six seven eight "])
  = "one two three four five six seven".
Proof. reflexivity. Qed.

(* ================================================================= *)
(** ** [_extract_section] *)

Section ExtractSection.

Variable urljoin : string -> string -> string.
Variable html_of : Node -> string.

Local Abbreviation extract := (_extract_section urljoin html_of).

(** A returned section is the record [_extract_section] builds from the
    section type [_determine_type] found. *)
Lemma extract_section_inv (elem : Node) (base_url : string) (idx : nat)
  (s : Section) :
  extract (Some elem) base_url idx = Ok (Some s) ->
  exists ty,
    _determine_type (Py.lower (tag elem)) elem = Ok ty /\
    id s = (ty ++ "-" ++ Py.str_of_nat idx)%string /\
    type s = ty /\
    sourceUrl s = base_url /\
    headings (content s) = firstn 10 (section_headings elem) /\
    content_text (content s) =
      (if (5000 <? Py.len (section_text elem))%N
       then Py.take 5000 (section_text elem) else section_text elem) /\
    links (content s) = firstn 50 (section_links urljoin base_url elem) /\
    images (content s) = firstn 20 (section_images urljoin base_url elem) /\
    lists (content s) = firstn 10 (section_lists elem) /\
    rawHtml s =
      (if (2000 <? Py.len (html_of elem))%N
       then (Py.take 2000 (html_of elem) ++ "...")%string else html_of elem) /\
    truncated s = (2000 <? Py.len (html_of elem))%N.
Proof.
  unfold _extract_section, rbind.
  destruct (_determine_type (Py.lower (tag elem)) elem) as [ty|e];
    [|discriminate].
  destruct (2000 <? Py.len (html_of elem))%N;
    intros H; injection H as <-; exists ty; repeat split; reflexivity.
Qed.



End ExtractSection.

(** C8. For every element [_extract_section] turns into a section,
    [truncated] is true if and only if the serialized markup of the element
    is longer than 2000 characters; in that case [rawHtml] is its first 2000
    characters followed by the marker ["..."], and otherwise [rawHtml] is the
    serialized markup itself. *)
Theorem truncated_iff_raw_markup_exceeds_2000
  (urljoin : string -> string -> string) (html_of : Node -> string)
  (elem : Node) (base_url : string) (idx : nat) (s : Section) :
  _extract_section urljoin html_of (Some elem) base_url idx = Ok (Some s) ->
  (truncated s = true <-> (2000 < Py.len (html_of elem))%N) /\
  (truncated s = true ->
   rawHtml s = (Py.take 2000 (html_of elem) ++ "...")%string) /\
  (truncated s = false -> rawHtml s = html_of elem).
Proof.
  intros H.
  destruct (extract_section_inv _ _ _ _ _ _ H)
    as (ty & _ & _ & _ & _ & _ & _ & _ & _ & _ & Hraw & Htr).
  rewrite Hraw, Htr.
  destruct (N.ltb_spec 2000 (Py.len (html_of elem))).
  - repeat split; auto; discriminate.
  - repeat split; auto; try discriminate; lia.
Qed.

Lemma truncated_iff_raw_markup_exceeds_2000_witness :
  exists s,
    _extract_section Sim.urljoin Sim.html_of (Some Examples.big_main)
      "http://docs.example/" 0 = Ok (Some s) /\
    (truncated s = true <->
     (2000 < Py.len (Sim.html_of Examples.big_main))%N) /\
    (truncated s = true ->
     rawHtml s =
       (Py.take 2000 (Sim.html_of Examples.big_main) ++ "...")%string) /\
    (truncated s = false -> rawHtml s = Sim.html_of Examples.big_main).
Proof.
  eexists; split; [vm_compute; reflexivity|].
  apply (truncated_iff_raw_markup_exceeds_2000 Sim.urljoin Sim.html_of
           Examples.big_main "http://docs.example/" 0).
  vm_compute; reflexivity.
Defined.

(** C4, as stated, fails: the [rawHtml] of a section cut from markup longer
    than 2000 characters holds 2003 characters. *)
Lemma raw_html_exceeds_2000 :
  exists s,
    _extract_section Sim.urljoin Sim.html_of (Some Examples.big_main)
      "http://docs.example/" 0 = Ok (Some s) /\
    (2000 < Py.len (rawHtml s))%N.
Proof. eexists; split; vm_compute; reflexivity. Qed.

(** C4, amended. For every section [_extract_section] returns, the content
    block holds at most 10 headings, 50 links, 20 images and 10 lists, its
    text is at most 5000 characters long, and [rawHtml] is at most 2003
    characters long: 2000 characters of markup and the three of the marker;
    without truncation it is at most 2000 characters long. *)
Theorem content_block_caps
  (urljoin : string -> string -> string) (html_of : Node -> string)
  (elem : Node) (base_url : string) (idx : nat) (s : Section) :
  _extract_section urljoin html_of (Some elem) base_url idx = Ok (Some s) ->
  List.length (headings (content s)) <= 10 /\
  List.length (links (content s)) <= 50 /\
  List.length (images (content s)) <= 20 /\
  List.length (lists (content s)) <= 10 /\
  (Py.len (content_text (content s)) <= 5000)%N /\
  (Py.len (rawHtml s) <= 2003)%N /\
  (truncated s = false -> (Py.len (rawHtml s) <= 2000)%N).
Proof.
  intros H.
  destruct (extract_section_inv _ _ _ _ _ _ H)
    as (ty & _ & _ & _ & _ & Hh & Ht & Hl & Hi & Hls & Hraw & Htr).
  rewrite Hh, Ht, Hl, Hi, Hls, Hraw, Htr.
  repeat split; try apply firstn_le_length.
  - destruct (N.ltb_spec 5000 (Py.len (section_text elem)));
      [apply take_len_le | lia].
  - destruct (N.ltb_spec 2000 (Py.len (html_of elem))).
    + rewrite append_len.
      pose proof (take_len_le 2000 (html_of elem)).
      change (Py.len "...") with 3%N. lia.
    + lia.
  - destruct (N.ltb_spec 2000 (Py.len (html_of elem)));
      [discriminate | intros _; lia].
Qed.

Lemma content_block_caps_witness :
  exists s,
    _extract_section Sim.urljoin Sim.html_of (Some Examples.big_main)
      "http://docs.example/" 0 = Ok (Some s) /\
    List.length (headings (content s)) <= 10 /\
    List.length (links (content s)) <= 50 /\
    List.length (images (content s)) <= 20 /\
    List.length (lists (content s)) <= 10 /\
    (Py.len (content_text (content s)) <= 5000)%N /\
    (Py.len (rawHtml s) <= 2003)%N /\
    (truncated s = false -> (Py.len (rawHtml s) <= 2000)%N).
Proof.
  eexists; split; [vm_compute; reflexivity|].
  apply (content_block_caps Sim.urljoin Sim.html_of Examples.big_main
           "http://docs.example/" 0).
  vm_compute; reflexivity.
Defined.

(* ================================================================= *)
(** ** Section identifiers *)

Lemma has_dash_app (a y : string) :
  has_dash (a ++ String "-"%char y) = true.
Proof. induction a as [|c a IH]; simpl; auto. rewrite IH; apply orb_true_r. Qed.

(** What follows the last dash of an identifier is determined by the
    identifier. *)
Lemma after_dash_inj (a b x y : string) :
  has_dash x = false -> has_dash y = false ->
  (a ++ "-" ++ x)%string = (b ++ "-" ++ y)%string -> x = y.
Proof.
  intros Hx Hy; revert b.
  induction a as [|c a IH]; intros [|d b] H; simpl in H.
  - now injection H.
  - injection H as _ H. rewrite H, has_dash_app in Hx. discriminate.
  - injection H as _ H. rewrite <- H, has_dash_app in Hy. discriminate.
  - injection H as _ H. eauto.
Qed.

Lemma string_of_uint_no_dash (d : uint) :
  has_dash (NilEmpty.string_of_uint d) = false.
Proof. induction d; simpl; auto. Qed.

Lemma str_of_nat_inj (i j : nat) : Py.str_of_nat i = Py.str_of_nat j -> i = j.
Proof.
  unfold Py.str_of_nat; intros H.
  apply (f_equal NilEmpty.uint_of_string) in H.
  rewrite !NilEmpty.usu in H. injection H as H.
  apply (f_equal Nat.of_uint) in H.
  now rewrite !Unsigned.of_to in H.
Qed.

Lemma section_id_inj (t1 t2 : string) (i j : nat) :
  (t1 ++ "-" ++ Py.str_of_nat i)%string = (t2 ++ "-" ++ Py.str_of_nat j)%string ->
  i = j.
Proof.
  intros H. apply str_of_nat_inj.
  eapply after_dash_inj; [| |exact H]; apply string_of_uint_no_dash.
Qed.

(** Induction on trees, with the hypothesis on every child. *)
Lemma Node_forall_ind (P : Node -> Prop) :
  (forall d, P (TextNode d)) ->
  (forall t a cs, Forall P cs -> P (Element t a cs)) ->
  forall n, P n.
Proof.
  intros Htext Helem.
  fix IH 1.
  intros [d|t a cs]; [apply Htext|].
  apply Helem.
  revert cs.
  fix IHcs 1.
  intros [|c cs]; constructor; [apply IH | apply IHcs].
Qed.

(** Every node [walk] lists below a node has a parent. *)
Lemma walk_parent (n p : Node) :
  Forall (fun np => snd np <> None) (walk (Some p) n).
Proof.
  revert p; induction n as [d|t a cs IH] using Node_forall_ind; intros p;
    simpl; constructor; simpl; try discriminate; auto.
  generalize (Element t a cs) as q.
  induction IH as [|c cs Hc _ IHcs]; intros q; simpl; [constructor|].
  apply Forall_app; split; auto.
Qed.

Lemma all_some {A} (l : list (option A)) :
  Forall (fun x => x <> None) l -> exists l', l = map Some l'.
Proof.
  induction 1 as [|[a|] l Ha _ [l' ->]].
  - now exists [].
  - now exists (a :: l').
  - congruence.
Qed.

(** [_parse_sections] never passes [None] to [_extract_section]. *)
Lemma section_elements_some (p : Tree) :
  exists ns, section_elements p = map Some ns.
Proof.
  unfold section_elements.
  destruct (parser_css sel_landmarks p) as [|n ns] eqn:E; simpl.
  - destruct (map snd (parser_css_from sel_h1_h3 p)) as [|x xs] eqn:Eh; simpl.
    + destruct (body p) as [b|]; [now exists [b] | now exists []].
    + rewrite <- Eh. apply all_some.
      unfold parser_css_from. destruct (root p) as [r|]; [|constructor].
      unfold css_from. apply Forall_map.
      apply Forall_forall; intros np Hnp.
      apply filter_In in Hnp as [Hnp _].
      pose proof (walk_parent r (document_node p)) as Hw.
      rewrite Forall_forall in Hw; auto.
  - now exists (n :: ns).
Qed.

Section ParseSections.

Variable HTMLParser : string -> Tree.
Variable urljoin : string -> string -> string.
Variable html_of : Node -> string.

Local Abbreviation extract := (_extract_section urljoin html_of).
Local Abbreviation parse := (_parse_sections HTMLParser urljoin html_of).

Lemma extract_section_some (elem : Node) (base_url : string) (idx : nat) :
  extract (Some elem) base_url idx <> Ok None.
Proof.
  unfold _extract_section, rbind.
  destruct (_determine_type (Py.lower (tag elem)) elem); [|discriminate].
  destruct (2000 <? Py.len (html_of elem))%N; discriminate.
Qed.

Lemma extract_section_id (elem : Node) (base_url : string) (idx : nat)
  (s : Section) :
  extract (Some elem) base_url idx = Ok (Some s) ->
  id s = (type s ++ "-" ++ Py.str_of_nat idx)%string.
Proof.
  intros H.
  destruct (extract_section_inv _ _ _ _ _ _ H) as (ty & _ & Hid & Hty & _).
  now rewrite Hid, Hty.
Qed.

(** The loop over the elements gives the section at position [i] the index
    [start + i]. *)
Lemma extract_all_ids (ns : list Node) (base_url : string) (start : nat)
  (secs : list Section) :
  extract_all urljoin html_of (map Some ns) base_url start = Ok secs ->
  List.length secs = List.length ns /\
  forall i s, nth_error secs i = Some s ->
    id s = (type s ++ "-" ++ Py.str_of_nat (start + i))%string.
Proof.
  revert start secs; induction ns as [|n ns IH]; intros start secs;
    cbn [map extract_all].
  - intros H; injection H as <-; split; auto. intros [|i] s; discriminate.
  - unfold rbind.
    destruct (extract (Some n) base_url start) as [[s0|]|e] eqn:E;
      cbv beta iota;
      [| now apply extract_section_some in E | discriminate].
    destruct (extract_all urljoin html_of (map Some ns) base_url (S start))
      as [rest|e] eqn:Er; cbv beta iota; [|discriminate].
    intros H; injection H as <-.
    destruct (IH _ _ Er) as [Hlen Hids]; split; [simpl; congruence|].
    intros [|i] s Hs; simpl in Hs.
    + injection Hs as <-. rewrite Nat.add_0_r. eapply extract_section_id; eauto.
    + rewrite <- plus_n_Sm. apply (Hids i s Hs).
Qed.

(** Identifiers built from distinct indices are distinct. *)
Lemma indexed_ids_nodup (secs : list Section) :
  (forall i s, nth_error secs i = Some s ->
     id s = (type s ++ "-" ++ Py.str_of_nat i)%string) ->
  NoDup (map id secs).
Proof.
  intros Hids. apply NoDup_nth_error; intros i j Hi Heq.
  rewrite length_map in Hi.
  rewrite !nth_error_map in Heq.
  destruct (nth_error secs i) as [si|] eqn:Ei;
    [|apply nth_error_None in Ei; lia].
  destruct (nth_error secs j) as [sj|] eqn:Ej; [|discriminate].
  simpl in Heq; injection Heq as Heq.
  rewrite (Hids _ _ Ei), (Hids _ _ Ej) in Heq.
  eapply section_id_inj; eauto.
Qed.

Lemma parse_sections_blank (html base_url : string) :
  blank html = true -> parse html base_url = Ok [empty_section base_url].
Proof. unfold _parse_sections, blank; now intros ->. Qed.

(** The sections of markup that is not blank carry their position. *)
Lemma parse_sections_ids (html base_url : string) (secs : list Section) :
  blank html = false ->
  parse html base_url = Ok secs ->
  forall i s, nth_error secs i = Some s ->
    id s = (type s ++ "-" ++ Py.str_of_nat i)%string.
Proof.
  unfold _parse_sections, blank; intros ->.
  set (parser := remove_noise (HTMLParser html)).
  destruct (section_elements_some parser) as [ns ->].
  rewrite firstn_map. unfold rbind at 1.
  destruct (extract_all urljoin html_of (map Some (firstn 20 ns)) base_url 0)
    as [all|e] eqn:E; cbv beta iota; [|discriminate].
  destruct (extract_all_ids _ _ _ _ E) as [_ Hids].
  destruct all as [|s0 all]; cbn [is_nil].
  - destruct (body parser) as [b|].
    + unfold rbind.
      destruct (extract (Some b) base_url 0) as [[s|]|e] eqn:Eb;
        cbv beta iota;
        [| now apply extract_section_some in Eb | discriminate].
      intros H; injection H as <-. intros [|[|i]] s' Hs; try discriminate.
      injection Hs as <-. eapply extract_section_id; eauto.
    + intros H; injection H as <-. intros [|i] s; discriminate.
  - intros H; injection H as <-. exact Hids.
Qed.

End ParseSections.

Section EmptyResult.

Variable HTMLParser : string -> Tree.
Variable urljoin : string -> string -> string.
Variable html_of : Node -> string.

(** [_parse_sections] returns an empty list only for markup that is not
    blank and whose tree, after noise removal, has no [body] and nothing to
    cut at. *)
Lemma parse_sections_empty_inv (html base_url : string) :
  _parse_sections HTMLParser urljoin html_of html base_url = Ok [] ->
  blank html = false /\
  body (remove_noise (HTMLParser html)) = None /\
  section_elements (remove_noise (HTMLParser html)) = [].
Proof.
  destruct (blank html) eqn:Hb.
  - rewrite parse_sections_blank by assumption. discriminate.
  - unfold _parse_sections. unfold blank in Hb; rewrite Hb.
    set (parser := remove_noise (HTMLParser html)).
    destruct (section_elements_some parser) as [ns Hns]; rewrite Hns.
    rewrite firstn_map. unfold rbind at 1.
    destruct (extract_all urljoin html_of (map Some (firstn 20 ns)) base_url 0)
      as [all|e] eqn:E; cbv beta iota; [|discriminate].
    destruct (extract_all_ids _ _ _ _ _ _ E) as [Hlen _].
    destruct all as [|s0 all]; cbn [is_nil]; [|discriminate].
    assert (ns = []) as ->
      by (destruct ns; [reflexivity | discriminate Hlen]).
    destruct (body parser) as [b|]; [|auto].
    unfold rbind.
    destruct (_extract_section urljoin html_of (Some b) base_url 0)
      as [[s|]|e] eqn:Eb; cbv beta iota; try discriminate.
    now apply extract_section_some in Eb.
Qed.

End EmptyResult.

(** C1. The markup of a frameset document is not blank, and its tree has no
    landmark, no heading and no [body]: [_parse_sections] returns the empty
    list, and so does a scrape of that page. *)
Theorem parse_sections_frameset_empty :
  blank (Sim.markup Examples.frameset_page) = false /\
  Sim.parse_sections [Examples.frameset_page]
    (Sim.markup Examples.frameset_page) "http://frames.example/" = Ok [] /\
  exists r w',
    Sim.run [Examples.frameset_page] "http://frames.example/"
      (Examples.up [Examples.frameset_page]) = (Ok r, w') /\
    sections r = [].
Proof.
  split; [reflexivity|]. split; [reflexivity|].
  do 2 eexists; split; [vm_compute; reflexivity | reflexivity].
Qed.

(** On a section whose [class] attribute has no value, [_parse_sections]
    raises, and [scrape] with it. *)
Example valueless_class_aborts_scrape :
  Sim.parse_sections [Examples.valueless_page]
    (Sim.markup Examples.valueless_page) "http://bare.example/"
  = Raise (Exception "'NoneType' object has no attribute 'lower'") /\
  fst (Sim.run [Examples.valueless_page] "http://bare.example/"
         (Examples.up [Examples.valueless_page]))
  = Raise (Exception "'NoneType' object has no attribute 'lower'").
Proof. split; vm_compute; reflexivity. Qed.

(* ================================================================= *)
(** ** Queries on the tree *)

Lemma hd_error_filter_fst {A B} (f : A -> bool) (l : list (A * B)) :
  hd_error (map fst (filter (fun x => f (fst x)) l)) = find f (map fst l).
Proof.
  induction l as [|[a b] l IH]; simpl; auto.
  destruct (f a); simpl; auto.
Qed.

Lemma find_pointwise {A} (f g : A -> bool) (l : list A) :
  (forall x, f x = g x) -> find f l = find g l.
Proof.
  intros H; induction l as [|a l IH]; simpl; auto.
  rewrite H, IH; reflexivity.
Qed.

(** [css_first] finds the first node of the tree that matches. *)
Lemma parser_css_first_find (sel : selector) (p : Tree) :
  parser_css_first sel p = find (matches sel) (tree_nodes p).
Proof.
  unfold parser_css_first, parser_css, parser_css_from, tree_nodes, css_from.
  destruct (root p) as [r|]; [apply hd_error_filter_fst | reflexivity].
Qed.

Lemma matches_tag (t : string) (n : Node) :
  matches (tags [t]) n = is_element n && has_tag t n.
Proof. destruct n; simpl; [reflexivity | apply orb_false_r]. Qed.

Lemma parser_css_first_tag (t : string) (p : Tree) :
  parser_css_first (tags [t]) p = first_element t p.
Proof.
  rewrite parser_css_first_find. unfold first_element.
  apply find_pointwise; intros n; apply matches_tag.
Qed.

Lemma bare_no_title (p : Tree) :
  bare p = true -> parser_css_first (tags ["title"]) p = None.
Proof.
  intros Hb. rewrite parser_css_first_tag. unfold first_element.
  destruct (find _ (tree_nodes p)) as [n|] eqn:E; [|reflexivity].
  apply find_some in E as [Hin Hm].
  unfold bare in Hb. rewrite forallb_forall in Hb. specialize (Hb _ Hin).
  apply andb_true_iff in Hb as [_ Hb], Hm as [_ Hm].
  rewrite Hm in Hb. discriminate.
Qed.

Lemma bare_no_attribute (p : Tree) (sel : selector) (k : string) :
  bare p = true -> attr_if_set k (parser_css_first sel p) = None.
Proof.
  intros Hb. rewrite parser_css_first_find.
  destruct (find _ (tree_nodes p)) as [n|] eqn:E; [|reflexivity].
  apply find_some in E as [Hin _].
  unfold bare in Hb. rewrite forallb_forall in Hb. specialize (Hb _ Hin).
  apply andb_true_iff in Hb as [Hb _].
  unfold attr_if_set. destruct (attributes n); [reflexivity | discriminate].
Qed.

Lemma extract_meta_static_bare (HTMLParser : string -> Tree) (html : string) :
  bare (HTMLParser html) = true ->
  _extract_meta_static HTMLParser html = default_meta.
Proof.
  intros Hb. unfold _extract_meta_static.
  rewrite (bare_no_title _ Hb), !(bare_no_attribute _ _ _ Hb). reflexivity.
Qed.

Lemma merge_nil (r : Rendered) : merge [] r = r.
Proof. destruct r as [[[html m] errs] inter]; reflexivity. Qed.

(* ================================================================= *)
(** ** [scrape] *)

Section ScrapeProperties.

Variable HTMLParser : string -> Tree.
Variable urljoin : string -> string -> string.
Variable html_of : Node -> string.
Variable World : Type.
Variable Handle : Type.
Variable utcnow_iso : World -> string.
Variable http_get : string -> M World string.
Variable new_page : M World unit.
Variable page_goto : string -> M World unit.
Variable page_content : M World string.
Variable page_title : M World string.
Variable page_get_attribute : string -> string -> M World (option string).
Variable page_close : M World unit.
Variable page_evaluate : string -> M World unit.
Variable page_query_selector : string -> M World (option Handle).
Variable page_query_selector_all : string -> M World (list Handle).
Variable handle_click : Handle -> M World unit.
Variable handle_get_attribute : Handle -> string -> M World (option string).

Local Abbreviation static_scrape := (_static_scrape HTMLParser World http_get).
Local Abbreviation js_scrape :=
  (_js_scrape HTMLParser World new_page page_goto page_content page_title
     page_get_attribute page_close).
Local Abbreviation js_scrape_for_interactions :=
  (_js_scrape_for_interactions HTMLParser urljoin World Handle new_page
     page_goto page_content page_title page_get_attribute page_close
     page_evaluate page_query_selector page_query_selector_all handle_click
     handle_get_attribute).
Local Abbreviation fallback :=
  (scrape_fallback HTMLParser World new_page page_goto page_content
     page_title page_get_attribute page_close).
Local Abbreviation fetch_all :=
  (scrape_fetch HTMLParser urljoin World Handle http_get new_page page_goto
     page_content page_title page_get_attribute page_close page_evaluate
     page_query_selector page_query_selector_all handle_click
     handle_get_attribute).
Local Abbreviation scrape_url :=
  (scrape HTMLParser urljoin html_of World Handle utcnow_iso http_get new_page
     page_goto page_content page_title page_get_attribute page_close
     page_evaluate page_query_selector page_query_selector_all handle_click
     handle_get_attribute).
Local Abbreviation parse := (_parse_sections HTMLParser urljoin html_of).

(** A result of [scrape] is assembled from what the fetch left and from the
    sections of that markup. *)
Lemma scrape_inv (url0 : string) (w w' : World) (r : ScrapeResult) :
  scrape_url url0 w = (Ok r, w') ->
  exists html m errs inter,
    fetch_all url0 w = (Ok (html, m, errs, inter), w') /\
    parse html url0 = Ok (sections r) /\
    meta r = m /\ errors r = errs /\ interactions r = inter /\ url r = url0.
Proof.
  unfold scrape, bind, lift_result, ret.
  destruct (fetch_all url0 w) as [[[[[html m] errs] inter]|e] w1];
    [|discriminate].
  destruct (parse html url0) as [secs|e] eqn:Ep; [|discriminate].
  intros H; injection H as <- <-.
  exists html, m, errs, inter; repeat split; assumption || reflexivity.
Qed.


(** When the static scrape raises, [scrape] continues with its fallback. *)
Lemma scrape_fetch_static_raises (url0 : string) (w w1 : World) (e : exn) :
  static_scrape url0 w = (Raise e, w1) ->
  fetch_all url0 w = fallback url0 e w1.
Proof.
  intros H. unfold scrape_fetch, try_except, bind at 1. now rewrite H.
Qed.

(** C5, amended. In every scrape result the section identifiers are pairwise
    distinct, and either the sections are the single placeholder section,
    whose [id] is ["empty-0"] while its [type] is ["unknown"], or the [id]
    of every section is its [type], a dash and its index in the list. *)
Theorem section_ids_indexed_and_unique (url0 : string) (w w' : World)
  (r : ScrapeResult) :
  scrape_url url0 w = (Ok r, w') ->
  NoDup (map id (sections r)) /\
  ((exists s, sections r = [s] /\ s = empty_section url0 /\
              id s = "empty-0" /\ type s = "unknown") \/
   (forall i s, nth_error (sections r) i = Some s ->
      id s = (type s ++ "-" ++ Py.str_of_nat i)%string)).
Proof.
  intros H.
  destruct (scrape_inv _ _ _ _ H) as (html & m & errs & inter & _ & Hp & _).
  destruct (blank html) eqn:Hb.
  - rewrite parse_sections_blank in Hp by assumption.
    injection Hp as <-. split.
    + repeat constructor. simpl; tauto.
    + left; eexists; repeat split.
  - pose proof (parse_sections_ids _ _ _ _ _ _ Hb Hp) as Hids.
    split; [now apply indexed_ids_nodup | now right].
Qed.


(** The same holds when the render fails inside [_js_scrape]: the navigation
    raises and the page does not even yield its markup.  [_js_scrape] then
    records the render-phase error itself and returns empty markup. *)
Lemma scrape_survives_navigation_failure (url0 msg : string)
  (w w1 w2 w3 w4 w5 : World) (e e3 : exn) :
  static_scrape url0 w = (Raise e, w1) ->
  new_page w1 = (Ok tt, w2) ->
  page_goto url0 w2 = (Raise (Exception msg), w3) ->
  page_content w3 = (Raise e3, w4) ->
  page_close w4 = (Ok tt, w5) ->
  exists r,
    scrape_url url0 w = (Ok r, w5) /\
    errors r =
      [ mkError ("Static scrape failed: " ++ str_exn e)%string fetch;
        mkError ("JS rendering error: " ++ msg)%string render ] /\
    sections r = [empty_section url0].
Proof.
  intros Hs Hn Hg Hc Hcl.
  eexists; split.
  - unfold scrape, bind at 1.
    rewrite (scrape_fetch_static_raises _ _ _ _ Hs).
    unfold scrape_fallback, try_except at 1, bind at 1.
    unfold _js_scrape, bind at 1. rewrite Hn.
    unfold try_except at 1, bind at 1. rewrite Hg.
    unfold bind at 1, harvest, try_except at 1, bind at 1. rewrite Hc.
    unfold ret at 1, bind at 1. rewrite Hcl.
    reflexivity.
  - split; reflexivity.
Qed.

(** C10. When the parser finds nothing in the empty string, the static
    extractor applied to the empty string returns the default record, with
    empty title and description, language ["en"] and no canonical link; and
    that record is the metadata of the result when the static scrape and
    the render that follows both raise. *)
Theorem default_meta_without_markup :
  bare (HTMLParser EmptyString) = true ->
  _extract_meta_static HTMLParser EmptyString =
    {| title := EmptyString; description := EmptyString; language := "en";
       canonical := None |} /\
  forall (url0 : string) (w w1 w2 : World) (e e2 : exn),
    static_scrape url0 w = (Raise e, w1) ->
    js_scrape url0 w1 = (Raise e2, w2) ->
    exists r,
      scrape_url url0 w = (Ok r, w2) /\
      meta r =
        {| title := EmptyString; description := EmptyString; language := "en";
           canonical := None |}.
Proof.
  intros Hb. pose proof (extract_meta_static_bare HTMLParser _ Hb) as Hm.
  split; [exact Hm|].
  intros url0 w w1 w2 e e2 Hs Hj.
  eexists; split.
  - unfold scrape, bind.
    rewrite (scrape_fetch_static_raises _ _ _ _ Hs).
    unfold scrape_fallback, try_except, bind. rewrite Hj. reflexivity.
  - exact Hm.
Qed.

(** C2, amended. After a successful static scrape, [scrape] runs the plain
    render if the stripped text of the body is shorter than 200 characters
    or the page has no main content, and the render with interactions
    otherwise; the page has main content when its first [main] element
    holds more than 100 characters of stripped text or, without any [main],
    when its first [article] does.  What the chosen render returns replaces
    the static markup and metadata; if it raises, the fallback of [scrape]
    takes over. *)
Theorem render_path_selection (url0 html : string) (m : Meta) (w w1 : World) :
  static_scrape url0 w = (Ok (html, m), w1) ->
  let parser := HTMLParser html in
  let full_render :=
    body_text_short parser || negb (first_main_else_article_substantial parser) in
  needs_full_render HTMLParser html = full_render /\
  fetch_all url0 w =
    match (if full_render then js_scrape url0 w1
           else js_scrape_for_interactions url0 w1) with
    | (Ok rendered, w2) => (Ok rendered, w2)
    | (Raise e, w2) => fallback url0 e w2
    end.
Proof.
  intros Hs parser full_render.
  assert (Hc : needs_full_render HTMLParser html = full_render).
  { unfold needs_full_render, _has_main_content, full_render,
      first_main_else_article_substantial, body_text_short.
    now rewrite !parser_css_first_tag. }
  split; [exact Hc|].
  unfold scrape_fetch, try_except, bind at 1. rewrite Hs, Hc.
  unfold bind, ret.
  destruct full_render.
  - destruct (js_scrape url0 w1) as [[r|e] w2]; [now rewrite merge_nil | auto].
  - destruct (js_scrape_for_interactions url0 w1) as [[r|e] w2];
      [now rewrite merge_nil | auto].
Qed.

End ScrapeProperties.

(** C5, as stated, fails on the placeholder section: after a scrape of an
    unreachable site its [id] is ["empty-0"], not ["unknown-0"]. *)
Lemma placeholder_id_differs_from_type_index :
  exists r w' s,
    Sim.run [] "http://down.example/" (Examples.unreachable [])
      = (Ok r, w') /\
    nth_error (sections r) 0 = Some s /\
    id s <> (type s ++ "-" ++ Py.str_of_nat 0)%string.
Proof.
  do 3 eexists; split; [vm_compute; reflexivity|].
  split; [reflexivity | vm_compute; discriminate].
Qed.

Lemma section_ids_indexed_and_unique_witness :
  exists r w',
    Sim.run Examples.catalogue "http://shop.example/1"
      (Examples.up Examples.catalogue) = (Ok r, w') /\
    NoDup (map id (sections r)) /\
    ((exists s, sections r = [s] /\
                s = empty_section "http://shop.example/1" /\
                id s = "empty-0" /\ type s = "unknown") \/
     (forall i s, nth_error (sections r) i = Some s ->
        id s = (type s ++ "-" ++ Py.str_of_nat i)%string)).
Proof.
  do 2 eexists; split; [vm_compute; reflexivity|].
  eapply (section_ids_indexed_and_unique
            (Sim.HTMLParser Examples.catalogue) Sim.urljoin Sim.html_of
            Sim.World Sim.Handle Sim.utcnow_iso Sim.http_get Sim.new_page
            Sim.page_goto Sim.page_content Sim.page_title
            Sim.page_get_attribute Sim.page_close Sim.page_evaluate
            Sim.page_query_selector Sim.page_query_selector_all
            Sim.handle_click Sim.handle_get_attribute
            "http://shop.example/1" (Examples.up Examples.catalogue)).
  vm_compute; reflexivity.
Defined.


Lemma default_meta_without_markup_witness :
  Sim.extract_meta_static [] EmptyString = default_meta /\
  exists r w',
    Sim.run [] "http://down.example/" (Examples.unreachable []) = (Ok r, w') /\
    meta r = default_meta.
Proof.
  destruct (default_meta_without_markup
              (Sim.HTMLParser []) Sim.urljoin Sim.html_of
              Sim.World Sim.Handle Sim.utcnow_iso Sim.http_get Sim.new_page
              Sim.page_goto Sim.page_content Sim.page_title
              Sim.page_get_attribute Sim.page_close Sim.page_evaluate
              Sim.page_query_selector Sim.page_query_selector_all
              Sim.handle_click Sim.handle_get_attribute eq_refl)
    as [Hm Hs].
  split; [exact Hm|].
  destruct (Hs "http://down.example/" (Examples.unreachable [])
              (Examples.unreachable []) (Examples.unreachable [])
              (Exception "All connection attempts failed")
              (Exception "Executable does not exist") eq_refl eq_refl)
    as (r & Hr & Hmeta).
  exists r, (Examples.unreachable []); split; assumption.
Defined.

(** C2, as stated, fails: on a page whose short [main] is followed by a long
    [article], the body text is not short and an [article] landmark holds
    more than 100 characters, yet [scrape] runs the plain render, not the
    render with interactions. *)
Lemma short_main_hides_long_article :
  let site := [Examples.article_page] in
  let html := Sim.markup Examples.article_page in
  let parser := Sim.HTMLParser site html in
  let w := Examples.up site in
  Sim.static_scrape site "http://blog.example/" w
    = (Ok (html, default_meta), w) /\
  body_text_short parser = false /\
  some_main_or_article_substantial parser = true /\
  needs_full_render (Sim.HTMLParser site) html = true /\
  Sim.fetch site "http://blog.example/" w
    = Sim.js_scrape site "http://blog.example/" w /\
  Sim.fetch site "http://blog.example/" w
    <> Sim.js_scrape_for_interactions site "http://blog.example/" w.
Proof.
  cbv zeta. repeat split; try (vm_compute; reflexivity).
  vm_compute; discriminate.
Qed.

Lemma render_path_selection_witness :
  let site := [Examples.main_page] in
  let html := Sim.markup Examples.main_page in
  let w := Examples.up site in
  Sim.static_scrape site "http://docs.example/" w
    = (Ok (html, default_meta), w) /\
  needs_full_render (Sim.HTMLParser site) html = false /\
  Sim.fetch site "http://docs.example/" w
    = Sim.js_scrape_for_interactions site "http://docs.example/" w.
Proof.
  cbv zeta.
  assert (Hs : Sim.static_scrape [Examples.main_page] "http://docs.example/"
                 (Examples.up [Examples.main_page])
               = (Ok (Sim.markup Examples.main_page, default_meta),
                  Examples.up [Examples.main_page]))
    by (vm_compute; reflexivity).
  split; [exact Hs|].
  destruct (render_path_selection
              (Sim.HTMLParser [Examples.main_page]) Sim.urljoin
              Sim.World Sim.Handle Sim.http_get Sim.new_page
              Sim.page_goto Sim.page_content Sim.page_title
              Sim.page_get_attribute Sim.page_close Sim.page_evaluate
              Sim.page_query_selector Sim.page_query_selector_all
              Sim.handle_click Sim.handle_get_attribute
              "http://docs.example/" _ _ _ _ Hs) as [Hc Hf].
  split.
  - rewrite Hc. vm_compute; reflexivity.
  - unfold Sim.fetch. rewrite Hf. vm_compute; reflexivity.
Defined.

(** C3. On a page whose [og:title] differs from its [title], the static
    extractor returns the [og:title] and the live extractor the [title]:
    the two paths disagree, and a scrape of the page reports the [title]. *)
Theorem meta_extractors_disagree_on_og_title :
  let site := [Examples.og_page] in
  let at_page := Sim.mkWorld site true true (Some Examples.og_page) in
  title (Sim.extract_meta_static site (Sim.markup Examples.og_page))
    = "Social" /\
  (exists m, Sim.extract_meta_js at_page = (Ok m, at_page) /\
             title m = "Plain") /\
  (exists r w', Sim.run site "http://og.example/" (Examples.up site)
                  = (Ok r, w') /\
                title (meta r) = "Plain").
Proof.
  cbv zeta. split; [reflexivity|]. split.
  - eexists; split; [vm_compute; reflexivity | reflexivity].
  - do 2 eexists; split; [vm_compute; reflexivity | reflexivity].
Qed.

(* ================================================================= *)
(** ** Noise removal *)

Lemma subnodes_eq (q : option Node) (n : Node) :
  map fst (walk q n) = subnodes n.
Proof. destruct n; reflexivity. Qed.

Lemma subnodes_element (t : string) (a : list (string * option string))
  (cs : list Node) :
  subnodes (Element t a cs) = Element t a cs :: flat_map subnodes cs.
Proof.
  unfold subnodes; simpl. f_equal.
  generalize (Element t a cs) as q.
  induction cs as [|c cs IH]; intros q; simpl; [reflexivity|].
  rewrite map_app, IH. f_equal. apply subnodes_eq.
Qed.

(** Pruning changes neither the tag nor the attributes of a node. *)
Lemma matches_prune (sel s : selector) (n : Node) :
  matches s (prune sel n) = matches s n.
Proof. destruct n; reflexivity. Qed.

Lemma prune_element (sel : selector) (t : string)
  (a : list (string * option string)) (cs : list Node) :
  prune sel (Element t a cs) = Element t a (prune_all sel cs).
Proof.
  simpl. f_equal. induction cs as [|c cs IH]; simpl; [reflexivity|].
  now rewrite IH.
Qed.

Lemma flat_subnodes_prune_all (sel : selector) (cs : list Node) :
  Forall (fun c => forall m, In m (subnodes (prune sel c)) ->
                             pruned_from sel c m) cs ->
  forall m, In m (flat_map subnodes (prune_all sel cs)) ->
    exists m0,
      In m0 (flat_map subnodes cs) /\ m = prune sel m0 /\
      matches sel m0 = false.
Proof.
  induction 1 as [|c cs Hc _ IH]; intros m; simpl; [contradiction|].
  destruct (matches sel c) eqn:Ec.
  - intros Hin. destruct (IH m Hin) as (m0 & Hm0 & Hm & Hno).
    exists m0; repeat split; auto. apply in_or_app; now right.
  - simpl. intros Hin. apply in_app_or in Hin as [Hin|Hin].
    + destruct (Hc m Hin) as (m0 & Hm0 & Hm & Hno).
      exists m0; repeat split; auto.
      * apply in_or_app; now left.
      * destruct Hno as [->|Hno]; assumption.
    + destruct (IH m Hin) as (m0 & Hm0 & Hm & Hno).
      exists m0; repeat split; auto. apply in_or_app; now right.
Qed.

(** Every node of a pruned subtree is the pruning of a node of the subtree
    which, unless it is the root, does not match. *)
Lemma subnodes_prune (sel : selector) (n m : Node) :
  In m (subnodes (prune sel n)) -> pruned_from sel n m.
Proof.
  revert m; induction n as [d|t a cs IH] using Node_forall_ind; intros m.
  - intros [<-|[]]. exists (TextNode d); simpl; auto.
  - rewrite prune_element, !subnodes_element.
    intros [<-|Hin].
    + exists (Element t a cs). rewrite prune_element, subnodes_element.
      simpl; auto.
    + destruct (flat_subnodes_prune_all sel cs IH m Hin)
        as (m0 & Hm0 & Hm & Hno).
      exists m0. rewrite subnodes_element. simpl; auto.
Qed.

Lemma tree_nodes_root (p : Tree) (r : Node) :
  root p = Some r -> tree_nodes p = subnodes r.
Proof. unfold tree_nodes; intros ->; apply subnodes_eq. Qed.

(** After [decompose_matching], every node stems from a node of the tree that
    does not match the selector, and matches what that node matches. *)
Lemma tree_nodes_decompose (p : Tree) (sel : selector) (m : Node) :
  In m (tree_nodes (decompose_matching p sel)) ->
  exists m0,
    In m0 (tree_nodes p) /\ (forall s, matches s m = matches s m0) /\
    matches sel m0 = false.
Proof.
  unfold decompose_matching.
  destruct (root p) as [r|] eqn:Er.
  - rewrite (tree_nodes_root p r Er).
    destruct (matches sel r) eqn:Em; [intros []|].
    rewrite (tree_nodes_root (mkTree (Some (prune sel r))) (prune sel r))
      by reflexivity.
    intros Hin. destruct (subnodes_prune _ _ _ Hin) as (m0 & Hm0 & -> & Hno).
    exists m0; repeat split; auto.
    + intros s; apply matches_prune.
    + destruct Hno as [->|Hno]; assumption.
  - unfold tree_nodes; rewrite Er. intros [].
Qed.

Lemma tree_nodes_fold_decompose (sels : list selector) (p : Tree) (m : Node) :
  In m (tree_nodes (fold_left decompose_matching sels p)) ->
  exists m0,
    In m0 (tree_nodes p) /\ (forall s, matches s m = matches s m0) /\
    (forall sel, In sel sels -> matches sel m0 = false).
Proof.
  revert p; induction sels as [|sel sels IH]; intros p; simpl.
  - intros Hin. exists m; repeat split; auto. intros sel [].
  - intros Hin. destruct (IH _ Hin) as (m1 & Hm1 & Hsame1 & Hno1).
    destruct (tree_nodes_decompose _ _ _ Hm1) as (m0 & Hm0 & Hsame0 & Hno0).
    exists m0; repeat split; auto.
    + intros s. now rewrite Hsame1, Hsame0.
    + intros sel' [<-|Hin']; [assumption|].
      rewrite <- Hsame0. now apply Hno1.
Qed.

(** No node left by [remove_noise] matches a noise selector. *)
Lemma remove_noise_unmatched (p : Tree) (m : Node) (sel : selector) :
  In m (tree_nodes (remove_noise p)) -> In sel noise_selectors ->
  matches sel m = false.
Proof.
  intros Hin Hsel.
  destruct (tree_nodes_fold_decompose _ _ _ Hin) as (m0 & _ & Hsame & Hno).
  rewrite Hsame. now apply Hno.
Qed.





(* ================================================================= *)
(** ** The visited pages of [_js_scrape_for_interactions] *)

Section Triples.

Context {W : Type}.

Local Abbreviation IM := (M (Locals * W)).

Lemma triple_ret {A} (P : Locals -> Prop) (V : A -> Prop) (a : A) :
  V a -> triple (W:=W) P (ret a) P V.
Proof.
  intros Ha l w HP; simpl; split; [exact HP|].
  intros a' H; injection H as <-; exact Ha.
Qed.

Lemma triple_bind {A B} (P Q R : Locals -> Prop) (V1 : A -> Prop)
  (V2 : B -> Prop) (m : IM A) (k : A -> IM B) :
  triple P m Q V1 ->
  (forall a, V1 a -> triple Q (k a) R V2) ->
  (forall l, Q l -> R l) ->
  triple P (bind m k) R V2.
Proof.
  intros Hm Hk Hqr l w HP. unfold bind.
  destruct (Hm l w HP) as [HQ HV].
  destruct (m (l, w)) as [[a|e] [l1 w1]]; simpl in *.
  - exact (Hk a (HV a eq_refl) l1 w1 HQ).
  - split; [auto | discriminate].
Qed.

Lemma triple_try {A} (P Q R : Locals -> Prop) (V : A -> Prop)
  (m : IM A) (h : exn -> IM A) :
  triple P m Q V ->
  (forall e, triple Q (h e) R V) ->
  (forall l, Q l -> R l) ->
  triple P (try_except m h) R V.
Proof.
  intros Hm Hh Hqr l w HP. unfold try_except.
  destruct (Hm l w HP) as [HQ HV].
  destruct (m (l, w)) as [[a|e] [l1 w1]]; simpl in *.
  - split; [auto|]. intros a' H; apply HV; exact H.
  - exact (Hh e l1 w1 HQ).
Qed.

Lemma triple_skip {A} (P Q : Locals -> Prop) (a : A) :
  (forall l, P l -> Q l) -> triple (W:=W) P (ret a) Q any.
Proof. intros H l w HP; simpl; split; [auto | intros; exact I]. Qed.

Lemma triple_weaken {A} (P Q Q' : Locals -> Prop) (V V' : A -> Prop)
  (m : IM A) :
  triple P m Q V ->
  (forall l, Q l -> Q' l) -> (forall a, V a -> V' a) ->
  triple P m Q' V'.
Proof.
  intros Hm HQ HV l w HP. destruct (Hm l w HP) as [H1 H2]. split; auto.
Qed.

(** A call into the world leaves the locals as they are. *)
Lemma triple_lift {A} (P : Locals -> Prop) (m : M W A) :
  triple P (lift m) P any.
Proof.
  intros l w HP. unfold lift; simpl.
  destruct (m w) as [r w']; simpl. split; [exact HP | intros; exact I].
Qed.

Lemma triple_set (P Q : Locals -> Prop) (f : Locals -> Locals) :
  (forall l, P l -> Q (f l)) -> triple (W:=W) P (set_locals f) Q any.
Proof. intros H l w HP; simpl; split; [auto | intros; exact I]. Qed.

Lemma triple_locals (P : Locals -> Prop) : triple (W:=W) P locals P P.
Proof.
  intros l w HP; simpl; split; [exact HP|].
  intros a H; injection H as <-; exact HP.
Qed.

Lemma triple_try_pass (P Q : Locals -> Prop) (m : IM unit) :
  triple P m Q any -> triple P (try_pass m) Q any.
Proof.
  intros Hm. unfold try_pass.
  apply (triple_try P Q Q); auto.
  intros e; now apply triple_ret.
Qed.

Lemma triple_for_each {A} (P : Locals -> Prop) (l : list A)
  (body : A -> IM unit) :
  (forall x, triple P (body x) P any) ->
  triple P (for_each l body) P any.
Proof.
  intros Hb; induction l as [|x l IH]; simpl.
  - now apply triple_ret.
  - apply (triple_bind P P P any); auto.
Qed.

End Triples.

Section VisitedPages.

Variable HTMLParser : string -> Tree.
Variable urljoin : string -> string -> string.
Variable World : Type.
Variable Handle : Type.
Variable new_page : M World unit.
Variable page_goto : string -> M World unit.
Variable page_content : M World string.
Variable page_title : M World string.
Variable page_get_attribute : string -> string -> M World (option string).
Variable page_close : M World unit.
Variable page_evaluate : string -> M World unit.
Variable page_query_selector : string -> M World (option Handle).
Variable page_query_selector_all : string -> M World (list Handle).
Variable handle_click : Handle -> M World unit.
Variable handle_get_attribute : Handle -> string -> M World (option string).
Variable url0 : string.

Local Abbreviation visited k := (fun l : Locals => pages_ok url0 k (pages_visited l)).

Lemma pages_ok_mono (k k' : nat) (v : list string) :
  k <= k' -> pages_ok url0 k v -> pages_ok url0 k' v.
Proof. intros Hk (H1 & H2 & H3); repeat split; auto; lia. Qed.

Lemma mem_false (u : string) (l : list string) : mem u l = false -> ~ In u l.
Proof.
  unfold mem; intros H Hin.
  assert (existsb (String.eqb u) l = true) as E
    by (apply existsb_exists; exists u; split; [assumption | apply String.eqb_refl]).
  congruence.
Qed.

(** Appending a page that was not visited keeps the list in order. *)
Lemma pages_ok_append (k : nat) (v : list string) (u : string) :
  pages_ok url0 k v -> mem u v = false -> pages_ok url0 (S k) (v ++ [u]).
Proof.
  intros (Hhd & Hnd & Hlen) Hm. repeat split.
  - destruct v; [discriminate | exact Hhd].
  - apply NoDup_app; repeat split; auto.
    + repeat constructor; simpl; tauto.
    + intros x Hx [<-|[]]. revert Hx. now apply mem_false.
  - rewrite length_app; simpl; lia.
Qed.

Lemma click_tabs_visited (k : nat) (tabs : list Handle) :
  triple (visited k) (click_tabs World Handle handle_click tabs)
    (visited k) any.
Proof.
  unfold click_tabs. apply triple_for_each; intros tab.
  apply triple_try_pass.
  apply (triple_bind _ (visited k) _ any); auto using triple_lift.
  intros _ _. now apply triple_set.
Qed.

Lemma click_load_more_visited (k : nat) (selectors : list string) :
  triple (visited k)
    (click_load_more World Handle page_query_selector handle_click selectors)
    (visited k) any.
Proof.
  induction selectors as [|selector rest IH]; simpl.
  - now apply triple_ret.
  - apply (triple_bind _ (visited k) _ any); auto.
    + apply (triple_try _ (visited k)); auto.
      * apply (triple_bind _ (visited k) _ any); auto using triple_lift.
        intros [b|] _; [|now apply triple_ret].
        apply (triple_bind _ (visited k) _ any); auto using triple_lift.
        intros _ _.
        apply (triple_bind _ (visited k) _ any); auto.
        -- now apply triple_set.
        -- intros _ _; now apply triple_ret.
      * intros e; now apply triple_ret.
    + intros [|] _; [now apply triple_ret | exact IH].
Qed.

(** A round of scrolling records at most one page, a new one, and none in
    the last round. *)
Lemma scroll_round_visited (k i : nat) :
  triple (visited k)
    (scroll_round urljoin World Handle page_goto page_evaluate
       page_query_selector_all handle_get_attribute url0 i)
    (visited (if i <? 2 then S k else k)) any.
Proof.
  set (k' := if i <? 2 then S k else k).
  assert (Hk : k <= k') by (unfold k'; destruct (i <? 2); lia).
  assert (Hmono : forall l : Locals, visited k l -> visited k' l)
    by (intros l; now apply pages_ok_mono).
  unfold scroll_round.
  apply (triple_bind _ (visited k) _ any); auto using triple_lift.
  intros _ _.
  apply (triple_bind _ (visited k) _ any); auto.
  { now apply triple_set. }
  intros _ _.
  apply (triple_bind _ (visited k) _ any); auto using triple_lift.
  intros [|first rest] _; [now apply triple_skip|].
  unfold k' in *. destruct (i <? 2); [|now apply triple_skip].
  apply triple_try_pass.
  apply (triple_bind _ (visited k) _ any); auto using triple_lift.
  intros [[|c u]|] _; try (now apply triple_skip).
  intros l w Hl. unfold bind, locals, set_locals, lift, ret; simpl.
  destruct (mem (urljoin url0 (String c u)) (pages_visited l)) eqn:Em; simpl.
  - split; [|intros; exact I]. eapply pages_ok_mono; [|exact Hl]. lia.
  - destruct (page_goto (urljoin url0 (String c u)) w) as [[[]|e] w1]; simpl;
      (split; [now apply pages_ok_append | intros; exact I]).
Qed.

Lemma bind_ok_inv {S A B} (m : M S A) (k : A -> M S B) (s s' : S) (b : B) :
  bind m k s = (Ok b, s') ->
  exists a s1, m s = (Ok a, s1) /\ k a s1 = (Ok b, s').
Proof.
  unfold bind. destruct (m s) as [[a|e] s1]; [eauto | discriminate].
Qed.

Ltac mono := intros ?l; apply pages_ok_mono; lia.
Ltac step Q := apply (triple_bind _ Q _ any); [ | | try (now auto); try mono ].

Lemma harvest_visited (k : nat) :
  triple (visited k)
    (harvest HTMLParser World page_content page_title page_get_attribute
       (fun _ (m : M World _) => lift m))
    (visited k) any.
Proof.
  unfold harvest. apply (triple_try _ (visited k)); auto.
  - step (visited k); [apply triple_lift | intros html _].
    step (visited k); [apply triple_lift | intros m _].
    now apply triple_skip.
  - intros e; now apply triple_skip.
Qed.

(** The three rounds record at most two pages. *)
Lemma rounds_visited :
  triple (visited 1)
    (for_each [0; 1; 2]
       (scroll_round urljoin World Handle page_goto page_evaluate
          page_query_selector_all handle_get_attribute url0))
    (visited 3) any.
Proof.
  cbn [for_each].
  step (visited 2); [apply (scroll_round_visited 1 0) | intros _ _].
  step (visited 3); [apply (scroll_round_visited 2 1) | intros _ _].
  step (visited 3); [apply (scroll_round_visited 3 2) | intros _ _].
  now apply triple_skip.
Qed.


End VisitedPages.


(** On two pages that link to each other, the link back to the origin is
    not followed: two pages are visited in three rounds. *)
Example link_back_to_origin_not_followed :
  exists html m errs w',
    Sim.js_scrape_for_interactions Examples.pair_of_pages
      "http://shop.example/a" (Examples.up Examples.pair_of_pages)
    = (Ok (html, m, errs,
           {| clicks := []; scrolls := 3;
              pages := ["http://shop.example/a"; "http://shop.example/b"] |}),
       w').
Proof. do 4 eexists; vm_compute; reflexivity. Qed.

(** When only the navigation of the render fails, [_js_scrape] returns what
    the page holds: the error log is again a fetch-phase error followed by a
    render-phase error, but the sections are cut from that markup. *)
Example navigation_failure_keeps_page_markup :
  exists r w',
    Sim.run [] "http://down.example/" (Sim.mkWorld [] false true None)
      = (Ok r, w') /\
    map phase (errors r) = [fetch; render] /\
    map label (sections r) = ["Body"].
Proof. do 2 eexists; split; [vm_compute; reflexivity|]. split; reflexivity. Qed.

(* ================================================================= *)
(** ** [_determine_type] and [_derive_label] *)

(** [_determine_type] returns one of eight section types, never the type
    ["unknown"] of the placeholder, and raises exactly when the [class] or
    the [id] attribute of the element has no value. *)
Theorem determine_type_range (tag_name : string) (elem : Node) :
  match _determine_type tag_name elem with
  | Ok ty =>
      In ty section_types /\ ty <> "unknown" /\
      has_value "class" elem && has_value "id" elem = true
  | Raise _ => has_value "class" elem && has_value "id" elem = false
  end.
Proof.
  unfold _determine_type, lower_attr, has_value, Py.get_default, rbind.
  destruct (Py.dict_lookup "class" (attributes elem)) as [[c|]|];
    destruct (Py.dict_lookup "id" (attributes elem)) as [[i|]|];
    try reflexivity;
    repeat match goal with
           | |- context [if ?b then _ else _] => destruct b
           end;
    (split; [simpl; auto 10 | split; [discriminate | reflexivity]]).
Qed.

Lemma lower_char_idem (c : ascii) :
  Py.lower_char (Py.lower_char c) = Py.lower_char c.
Proof. destruct c as [[] [] [] [] [] [] [] []]; reflexivity. Qed.

Lemma lower_idem (s : string) : Py.lower (Py.lower s) = Py.lower s.
Proof.
  induction s as [|c s IH]; simpl; [reflexivity|].
  now rewrite lower_char_idem, IH.
Qed.

Lemma dict_lookup_lower_values (k : string) (a : list (string * option string)) :
  Py.dict_lookup k (lower_values a)
  = option_map (option_map Py.lower) (Py.dict_lookup k a).
Proof.
  induction a as [|[k' v] a IH]; simpl; [reflexivity|].
  destruct (String.eqb k k'); [reflexivity | exact IH].
Qed.

Lemma lower_attr_lower_values (k t : string)
  (a : list (string * option string)) (cs : list Node) :
  lower_attr k (Element t (lower_values a) cs) = lower_attr k (Element t a cs).
Proof.
  unfold lower_attr, Py.get_default; simpl.
  rewrite dict_lookup_lower_values.
  destruct (Py.dict_lookup k a) as [[v|]|]; simpl; try reflexivity.
  now rewrite lower_idem.
Qed.

(** The classification ignores the case of the letters in the tag name and
    in the [class] and [id] attributes. *)
Theorem determine_type_ignores_case (tag_name t : string)
  (a : list (string * option string)) (cs : list Node) :
  _determine_type (Py.lower tag_name) (Element t (lower_values a) cs)
  = _determine_type tag_name (Element t a cs).
Proof.
  unfold _determine_type.
  now rewrite !lower_attr_lower_values, lower_idem.
Qed.

Lemma lower_length (s : string) : String.length (Py.lower s) = String.length s.
Proof. induction s as [|c s IH]; simpl; auto. Qed.

Lemma capitalize_lower_len (s : string) :
  Py.len (Py.capitalize (Py.lower s)) = Py.len s.
Proof.
  unfold Py.len. destruct s as [|c s]; simpl; [reflexivity|].
  now rewrite !lower_length.
Qed.

(** A label is at most 50 characters long, unless it is the capitalised tag
    name of an element without text, which is as long as the tag name. *)
Theorem derive_label_bound (elem : Node) :
  (Py.len (_derive_label elem) <= N.max 50 (Py.len (tag elem)))%N.
Proof.
  unfold _derive_label.
  destruct (find nonempty (map stripped_text (css sel_h1_h3 elem))) as [l|].
  - pose proof (take_len_le 50 l). lia.
  - destruct (firstn 7 (Py.split (stripped_text elem))) as [|w ws].
    + rewrite capitalize_lower_len. lia.
    + destruct (N.ltb_spec 50 (Py.len (Py.join " " (w :: ws)))).
      * pose proof (take_len_le 50 (Py.join " " (w :: ws))). lia.
      * lia.
Qed.

Lemma in_firstn {A} (n : nat) (l : list A) (x : A) :
  In x (firstn n l) -> In x l.
Proof.
  revert l; induction n as [|n IH]; intros [|a l]; simpl; try tauto.
  intros [H|H]; auto.
Qed.

Lemma Forall_firstn_of {A} (P : A -> Prop) (n : nat) (l : list A) :
  Forall P l -> Forall P (firstn n l).
Proof.
  rewrite !Forall_forall. intros H x Hx. apply H. eapply in_firstn; eauto.
Qed.

Lemma rev_acc_nonempty (s acc : string) :
  nonempty acc = true -> nonempty (Py.rev_acc s acc) = true.
Proof.
  revert acc; induction s as [|c s IH]; intros acc H; simpl; auto.
Qed.

(** The words [split] returns are not empty. *)
Lemma split_acc_words (s cur : string) :
  Forall (fun w => nonempty w = true) (Py.split_acc s cur).
Proof.
  revert cur; induction s as [|c s IH]; intros cur; simpl.
  - destruct cur; constructor; [|constructor].
    unfold Py.rev; simpl. now apply rev_acc_nonempty.
  - destruct (Py.isspace c); [|apply IH].
    destruct cur; [apply IH|].
    constructor; [|apply IH].
    unfold Py.rev; simpl. now apply rev_acc_nonempty.
Qed.

Lemma take_nonempty (n : N) (s : string) :
  (0 < n)%N -> nonempty s = true -> nonempty (Py.take n s) = true.
Proof.
  unfold Py.take. intros Hn Hs.
  destruct (N.to_nat n) as [|k] eqn:E; [lia|].
  destruct s; [discriminate | reflexivity].
Qed.

Lemma capitalize_lower_nonempty (s : string) :
  nonempty s = true -> nonempty (Py.capitalize (Py.lower s)) = true.
Proof. destruct s; [discriminate | reflexivity]. Qed.

(** The label of an element is never empty: it is a non-empty heading, the
    first words of the text, or the capitalised tag name. *)
Theorem derive_label_nonempty (elem : Node) :
  nonempty (tag elem) = true -> nonempty (_derive_label elem) = true.
Proof.
  intros Htag. unfold _derive_label.
  destruct (find nonempty (map stripped_text (css sel_h1_h3 elem)))
    as [l|] eqn:E.
  - apply find_some in E as [_ Hl]. apply take_nonempty; [lia | exact Hl].
  - destruct (firstn 7 (Py.split (stripped_text elem))) as [|w ws] eqn:Ew.
    + now apply capitalize_lower_nonempty.
    + assert (Hw : nonempty w = true).
      { pose proof (split_acc_words (stripped_text elem) EmptyString) as Hall.
        rewrite Forall_forall in Hall. apply Hall.
        apply (in_firstn 7). unfold Py.split in Ew. rewrite Ew. now left. }
      assert (Hj : nonempty (Py.join " " (w :: ws)) = true).
      { unfold Py.join; simpl. destruct ws; [exact Hw|].
        destruct w; [discriminate | reflexivity]. }
      destruct (50 <? Py.len (Py.join " " (w :: ws)))%N;
        [apply take_nonempty; [lia | exact Hj] | exact Hj].
Qed.

Lemma derive_label_nonempty_witness :
  nonempty (tag (Element "div" [] [])) = true /\
  _derive_label (Element "div" [] []) = "Div" /\
  nonempty (_derive_label (Element "div" [] [])) = true.
Proof.
  split; [reflexivity|]. split; [reflexivity|].
  apply (derive_label_nonempty (Element "div" [] [])). reflexivity.
Defined.

(* ================================================================= *)
(** ** The content [_extract_section] extracts *)

Section ExtractedContent.

Variable urljoin : string -> string -> string.
Variable html_of : Node -> string.

Lemma extract_section_label_tables (elem : Node) (base_url : string)
  (idx : nat) (s : Section) :
  _extract_section urljoin html_of (Some elem) base_url idx = Ok (Some s) ->
  label s = _derive_label elem /\ tables (content s) = section_tables elem.
Proof.
  unfold _extract_section, rbind.
  destruct (_determine_type (Py.lower (tag elem)) elem) as [ty|e];
    [|discriminate].
  destruct (2000 <? Py.len (html_of elem))%N;
    intros H; injection H as <-; split; reflexivity.
Qed.

Lemma non_nil_length {A} (l : list A) :
  negb (Nat.eqb (List.length l) 0) = true -> l <> [].
Proof. destruct l; [discriminate | discriminate]. Qed.

(** Empty headings, empty list items, lists without items, table rows
    without cells and tables without rows are dropped. *)
Theorem extracted_content_has_no_empty_entry (elem : Node)
  (base_url : string) (idx : nat) (s : Section) :
  _extract_section urljoin html_of (Some elem) base_url idx = Ok (Some s) ->
  Forall (fun h => nonempty h = true) (headings (content s)) /\
  Forall (fun items => items <> [] /\
                       Forall (fun i => nonempty i = true) items)
    (lists (content s)) /\
  Forall (fun t => t <> [] /\ Forall (fun row => row <> []) t)
    (tables (content s)).
Proof.
  intros H.
  destruct (extract_section_inv _ _ _ _ _ _ H)
    as (ty & _ & _ & _ & _ & Hh & _ & _ & _ & Hl & _).
  destruct (extract_section_label_tables _ _ _ _ H) as [_ Ht].
  rewrite Hh, Hl, Ht. repeat split.
  - apply Forall_firstn_of, Forall_forall. intros h Hin.
    now apply filter_In in Hin.
  - apply Forall_firstn_of, Forall_forall. intros items Hin.
    apply filter_In in Hin as [Hin Hlen]. split; [now apply non_nil_length|].
    apply in_map_iff in Hin as (ul & <- & _).
    apply Forall_forall. intros i Hi. now apply filter_In in Hi.
  - apply Forall_forall. intros t Hin.
    apply filter_In in Hin as [Hin Hlen]. split; [now apply non_nil_length|].
    apply in_map_iff in Hin as (table & <- & _).
    apply Forall_forall. intros row Hrow.
    apply filter_In in Hrow as [_ Hrow]. now apply non_nil_length.
Qed.

Lemma collapse_ws_single_spaced (in_run : bool) (s : string) :
  single_spaced in_run (Py.collapse_ws in_run s) = true.
Proof.
  revert in_run; induction s as [|c s IH]; intros in_run; simpl;
    [reflexivity|].
  destruct (Py.isspace c) eqn:Ec.
  - destruct in_run; [apply IH|].
    simpl. apply IH.
  - simpl. rewrite Ec. apply IH.
Qed.

Lemma take_nat_single_spaced (n : nat) (b : bool) (s : string) :
  single_spaced b s = true -> single_spaced b (Py.take_nat n s) = true.
Proof.
  revert b s; induction n as [|n IH]; intros b [|c s]; simpl; auto.
  destruct (Py.isspace c).
  - intros H. apply andb_true_iff in H as [H1 H2].
    rewrite H1. simpl. now apply IH.
  - apply IH.
Qed.

(** In the text of a section the only whitespace is the single space: runs
    of whitespace are collapsed, also after the cut at 5000 characters. *)
Theorem extracted_text_single_spaced (elem : Node) (base_url : string)
  (idx : nat) (s : Section) :
  _extract_section urljoin html_of (Some elem) base_url idx = Ok (Some s) ->
  single_spaced false (content_text (content s)) = true.
Proof.
  intros H.
  destruct (extract_section_inv _ _ _ _ _ _ H)
    as (ty & _ & _ & _ & _ & _ & Ht & _).
  rewrite Ht.
  assert (Hs : single_spaced false (section_text elem) = true)
    by apply collapse_ws_single_spaced.
  destruct (5000 <? Py.len (section_text elem))%N; [|exact Hs].
  now apply take_nat_single_spaced.
Qed.

(** Every link and image kept comes from a non-empty [href] or [src],
    resolved against the base URL of the section. *)
Theorem extracted_targets_resolved (elem : Node) (base_url : string)
  (idx : nat) (s : Section) :
  _extract_section urljoin html_of (Some elem) base_url idx = Ok (Some s) ->
  sourceUrl s = base_url /\
  Forall (fun l => resolved_from urljoin base_url (href l))
    (links (content s)) /\
  Forall (fun i => resolved_from urljoin base_url (src i))
    (images (content s)).
Proof.
  intros H.
  destruct (extract_section_inv _ _ _ _ _ _ H)
    as (ty & _ & _ & _ & Hu & _ & _ & Hl & Hi & _).
  rewrite Hl, Hi. split; [exact Hu|]. split.
  - apply Forall_firstn_of, Forall_forall. intros l Hin.
    apply in_flat_map in Hin as (a & _ & Hin).
    destruct (Py.get_default "href" EmptyString (attributes a))
      as [[|c h]|]; try contradiction.
    destruct Hin as [<-|[]]. exists (String c h). split; reflexivity.
  - apply Forall_firstn_of, Forall_forall. intros i Hin.
    apply in_flat_map in Hin as (a & _ & Hin).
    destruct (Py.get_default "src" EmptyString (attributes a))
      as [[|c h]|]; try contradiction.
    destruct Hin as [<-|[]]. exists (String c h). split; reflexivity.
Qed.

End ExtractedContent.

Lemma extracted_content_has_no_empty_entry_witness :
  exists s,
    _extract_section Sim.urljoin Sim.html_of (Some Examples.rich_section)
      "http://shop.example" 3 = Ok (Some s) /\
    headings (content s) = ["Plans"] /\
    lists (content s) = [["Free"; "Pro"]] /\
    Forall (fun h => nonempty h = true) (headings (content s)) /\
    Forall (fun items => items <> [] /\
                         Forall (fun i => nonempty i = true) items)
      (lists (content s)) /\
    Forall (fun t => t <> [] /\ Forall (fun row => row <> []) t)
      (tables (content s)).
Proof.
  eexists; split; [vm_compute; reflexivity|].
  split; [reflexivity|]. split; [reflexivity|].
  apply (extracted_content_has_no_empty_entry Sim.urljoin Sim.html_of
           Examples.rich_section "http://shop.example" 3).
  vm_compute; reflexivity.
Defined.

Lemma extracted_text_single_spaced_witness :
  exists s,
    _extract_section Sim.urljoin Sim.html_of (Some Examples.rich_section)
      "http://shop.example" 3 = Ok (Some s) /\
    single_spaced false (content_text (content s)) = true.
Proof.
  eexists; split; [vm_compute; reflexivity|].
  apply (extracted_text_single_spaced Sim.urljoin Sim.html_of
           Examples.rich_section "http://shop.example" 3).
  vm_compute; reflexivity.
Defined.

Lemma extracted_targets_resolved_witness :
  exists s,
    _extract_section Sim.urljoin Sim.html_of (Some Examples.rich_section)
      "http://shop.example" 3 = Ok (Some s) /\
    map href (links (content s)) = ["http://shop.example/buy"] /\
    sourceUrl s = "http://shop.example" /\
    Forall (fun l => resolved_from Sim.urljoin "http://shop.example" (href l))
      (links (content s)) /\
    Forall (fun i => resolved_from Sim.urljoin "http://shop.example" (src i))
      (images (content s)).
Proof.
  eexists; split; [vm_compute; reflexivity|].
  split; [reflexivity|].
  apply (extracted_targets_resolved Sim.urljoin Sim.html_of
           Examples.rich_section "http://shop.example" 3).
  vm_compute; reflexivity.
Defined.

(* ================================================================= *)
(** ** How [_parse_sections] cuts the tree *)

Section Segmentation.

Variable HTMLParser : string -> Tree.
Variable urljoin : string -> string -> string.
Variable html_of : Node -> string.

Local Abbreviation extract := (_extract_section urljoin html_of).
Local Abbreviation parse := (_parse_sections HTMLParser urljoin html_of).

(** The section at position [i] is extracted from the element at position
    [i], with the index [start + i]. *)
Lemma extract_all_nth (ns : list Node) (base_url : string) (start : nat)
  (secs : list Section) :
  extract_all urljoin html_of (map Some ns) base_url start = Ok secs ->
  List.length secs = List.length ns /\
  forall i s, nth_error secs i = Some s ->
    exists n, nth_error ns i = Some n /\
              extract (Some n) base_url (start + i) = Ok (Some s).
Proof.
  revert start secs; induction ns as [|n ns IH]; intros start secs;
    cbn [map extract_all].
  - intros H; injection H as <-; split; auto. intros [|i] s; discriminate.
  - unfold rbind.
    destruct (extract (Some n) base_url start) as [[s0|]|e] eqn:E;
      cbv beta iota;
      [| now apply extract_section_some in E | discriminate].
    destruct (extract_all urljoin html_of (map Some ns) base_url (S start))
      as [rest|e] eqn:Er; cbv beta iota; [|discriminate].
    intros H; injection H as <-.
    destruct (IH _ _ Er) as [Hlen Hnth]; split; [simpl; congruence|].
    intros [|i] s Hs; simpl in Hs.
    + injection Hs as <-. rewrite Nat.add_0_r. exists n; auto.
    + rewrite <- plus_n_Sm. apply (Hnth i s Hs).
Qed.

Lemma section_elements_nil_body (p : Tree) :
  section_elements p = [] -> body p = None.
Proof.
  unfold section_elements.
  destruct (map Some (parser_css sel_landmarks p)); [|discriminate].
  cbn [is_nil].
  destruct (map snd (parser_css_from sel_h1_h3 p)); [|discriminate].
  cbn [is_nil]. destruct (body p); [discriminate | reflexivity].
Qed.

(** The block that closes [_parse_sections] never adds a section: when the
    loop has produced none, there was no element to cut at and so no [body]
    either.  The sections of markup that is not blank are those of the first
    20 section elements. *)
Theorem parse_sections_is_the_loop (html base_url : string) :
  blank html = false ->
  parse html base_url =
    extract_all urljoin html_of
      (firstn 20 (section_elements (remove_noise (HTMLParser html))))
      base_url 0.
Proof.
  intros Hb. unfold _parse_sections. unfold blank in Hb; rewrite Hb.
  set (parser := remove_noise (HTMLParser html)).
  destruct (section_elements_some parser) as [ns Hns]. rewrite Hns.
  rewrite firstn_map. unfold rbind.
  destruct (extract_all urljoin html_of (map Some (firstn 20 ns)) base_url 0)
    as [[|s0 all]|e] eqn:E; cbn [is_nil]; try reflexivity.
  destruct (extract_all_nth _ _ _ _ E) as [Hlen _].
  assert (ns = []) as -> by (destruct ns; [reflexivity | discriminate Hlen]).
  now rewrite (section_elements_nil_body parser Hns).
Qed.

(** What the loop returns, element by element. *)
Lemma parse_sections_from (html base_url : string) (secs : list Section)
  (elems : list (option Node)) :
  blank html = false ->
  parse html base_url = Ok secs ->
  section_elements (remove_noise (HTMLParser html)) = elems ->
  List.length secs = Nat.min 20 (List.length elems) /\
  forall i s, nth_error secs i = Some s ->
    exists n, nth_error elems i = Some (Some n) /\
              extract (Some n) base_url i = Ok (Some s).
Proof.
  intros Hb Hp <-. rewrite parse_sections_is_the_loop in Hp by assumption.
  destruct (section_elements_some (remove_noise (HTMLParser html)))
    as [ns Hns].
  rewrite Hns in *. rewrite firstn_map in Hp.
  destruct (extract_all_nth _ _ _ _ Hp) as [Hlen Hnth]. split.
  - now rewrite Hlen, length_firstn, length_map.
  - intros i s Hs. destruct (Hnth i s Hs) as (n & Hn & He).
    exists n; split; [|exact He].
    rewrite nth_error_firstn in Hn.
    destruct (i <? 20); [|discriminate].
    now rewrite nth_error_map, Hn.
Qed.

(** [_parse_sections] returns at most 20 sections, each with the base URL
    as its source. *)
Theorem parse_sections_at_most_20 (html base_url : string)
  (secs : list Section) :
  parse html base_url = Ok secs ->
  List.length secs <= 20 /\ Forall (fun s => sourceUrl s = base_url) secs.
Proof.
  intros Hp. destruct (blank html) eqn:Hb.
  - rewrite parse_sections_blank in Hp by assumption. injection Hp as <-.
    split; [simpl; lia | repeat constructor].
  - destruct (parse_sections_from _ _ _ _ Hb Hp eq_refl) as [Hlen Hnth].
    split; [lia|].
    apply Forall_forall. intros s Hin.
    apply In_nth_error in Hin as [i Hi].
    destruct (Hnth i s Hi) as (n & _ & He).
    now destruct (extract_section_inv _ _ _ _ _ _ He)
      as (ty & _ & _ & _ & Hu & _).
Qed.



(** Body fallback: without landmarks and headings, the [body] is the one
    section. *)
Theorem body_is_the_section (html base_url : string) (secs : list Section)
  (b : Node) :
  blank html = false ->
  parse html base_url = Ok secs ->
  let parser := remove_noise (HTMLParser html) in
  parser_css sel_landmarks parser = [] ->
  parser_css sel_h1_h3 parser = [] ->
  body parser = Some b ->
  exists s, secs = [s] /\ extract (Some b) base_url 0 = Ok (Some s).
Proof.
  intros Hb Hp parser Hl Hh Hbody.
  assert (He : section_elements parser = [Some b]).
  { unfold section_elements. rewrite Hl. cbn [map is_nil].
    unfold parser_css in Hh. apply map_eq_nil in Hh. rewrite Hh.
    cbn [map is_nil]. now rewrite Hbody. }
  destruct (parse_sections_from _ _ _ _ Hb Hp He) as [Hlen Hnth].
  destruct secs as [|s [|s' secs]]; try discriminate Hlen.
  exists s; split; [reflexivity|].
  destruct (Hnth 0 s eq_refl) as (n & Hn & Hx).
  injection Hn as <-. exact Hx.
Qed.

End Segmentation.

Lemma parse_sections_is_the_loop_witness :
  blank (Sim.markup Examples.article_page) = false /\
  Sim.parse_sections [Examples.article_page]
    (Sim.markup Examples.article_page) "http://blog.example/"
  = extract_all Sim.urljoin Sim.html_of
      (firstn 20
         (section_elements
            (remove_noise
               (Sim.HTMLParser [Examples.article_page]
                  (Sim.markup Examples.article_page)))))
      "http://blog.example/" 0.
Proof.
  split; [reflexivity|].
  apply (parse_sections_is_the_loop (Sim.HTMLParser [Examples.article_page])
           Sim.urljoin Sim.html_of).
  reflexivity.
Defined.

Lemma parse_sections_at_most_20_witness :
  exists secs,
    Sim.parse_sections [Examples.article_page]
      (Sim.markup Examples.article_page) "http://blog.example/" = Ok secs /\
    List.length secs <= 20 /\
    Forall (fun s => sourceUrl s = "http://blog.example/") secs.
Proof.
  eexists; split; [vm_compute; reflexivity|].
  apply (parse_sections_at_most_20 (Sim.HTMLParser [Examples.article_page])
           Sim.urljoin Sim.html_of (Sim.markup Examples.article_page)).
  vm_compute; reflexivity.
Defined.



Lemma body_is_the_section_witness :
  exists secs s,
    Sim.parse_sections [Examples.notice_page]
      (Sim.markup Examples.notice_page) "http://shop.example/about"
    = Ok secs /\
    secs = [s] /\
    _extract_section Sim.urljoin Sim.html_of
      (Some (Element "body" []
               [Examples.overlay; Examples.notice;
                Sim.el "p" [TextNode "About us"]]))
      "http://shop.example/about" 0 = Ok (Some s).
Proof.
  eexists.
  assert (Hp : Sim.parse_sections [Examples.notice_page]
                 (Sim.markup Examples.notice_page) "http://shop.example/about"
               = Ok _) by (vm_compute; reflexivity).
  destruct (body_is_the_section (Sim.HTMLParser [Examples.notice_page])
              Sim.urljoin Sim.html_of (Sim.markup Examples.notice_page)
              "http://shop.example/about" _
              (Element "body" []
                 [Examples.overlay; Examples.notice;
                  Sim.el "p" [TextNode "About us"]])
              eq_refl Hp)
    as (s & Hs & Hx); try (vm_compute; reflexivity).
  exists s. split; [exact Hp|]. split; assumption.
Defined.

(* ================================================================= *)
(** ** The metadata extractors *)

Lemma meta_ok_default : meta_ok default_meta.
Proof. split; [split; vm_compute; discriminate | discriminate]. Qed.

Lemma attr_if_set_nonempty (k : string) (n : option Node) (v : string) :
  attr_if_set k n = Some v -> nonempty v = true.
Proof.
  unfold attr_if_set. destruct n as [n|]; [|discriminate].
  destruct (Py.get k (attributes n)) as [[|c s]|]; try discriminate.
  intros H; injection H as <-; reflexivity.
Qed.

Lemma attr_if_truthy_nonempty (x : option string) (v : string) :
  attr_if_truthy x = Some v -> nonempty v = true.
Proof.
  unfold attr_if_truthy. destruct x as [[|c s]|]; simpl; try discriminate.
  intros H; injection H as <-; reflexivity.
Qed.

Lemma meta_ok_set_language (lang : string) (m : Meta) :
  nonempty lang = true -> meta_ok m ->
  meta_ok (set_language (Py.take 2 lang) m).
Proof.
  intros Hl [_ Hc]. split; [|exact Hc]. cbn [language set_language].
  pose proof (take_len_le 2 lang) as Hle.
  assert (Hne : nonempty (Py.take 2 lang) = true)
    by (apply take_nonempty; [lia | assumption]).
  destruct (Py.take 2 lang) as [|c s]; [discriminate|].
  unfold Py.len in *. cbn [String.length] in *. lia.
Qed.

Lemma meta_ok_set_canonical (v : string) (m : Meta) :
  nonempty v = true -> meta_ok m -> meta_ok (set_canonical v m).
Proof.
  intros Hv [Hl _]. split; [exact Hl|]. simpl.
  intros H; injection H as ->. discriminate.
Qed.

(** Whatever the markup, the static extractor returns a language of one or
    two characters and never an empty canonical link. *)
Theorem meta_static_well_formed (HTMLParser : string -> Tree) (html : string) :
  meta_ok (_extract_meta_static HTMLParser html).
Proof.
  unfold _extract_meta_static.
  set (parser := HTMLParser html).
  set (m1 := when_some (parser_css_first (tags ["title"]) parser) _ _).
  set (m2 := when_some (attr_if_set "content" _) set_title m1).
  set (m3 := when_some (attr_if_set "content" _) set_description m2).
  set (m4 := when_some (attr_if_set "content" _) set_description m3).
  assert (H4 : meta_ok m4).
  { unfold m4, m3, m2, m1, when_some.
    repeat match goal with
           | |- context [match ?o with Some _ => _ | None => _ end] =>
               destruct o
           end; exact meta_ok_default. }
  destruct (attr_if_set "lang" (parser_css_first (tags ["html"]) parser))
    as [lang|] eqn:El;
    destruct (attr_if_set "href"
                (parser_css_first [SelTagAttrEq "link" "rel" "canonical"]
                   parser)) as [c|] eqn:Ec; cbn [when_some];
    repeat first
      [ apply meta_ok_set_canonical;
        [exact (attr_if_set_nonempty _ _ _ Ec)|]
      | apply meta_ok_set_language;
        [exact (attr_if_set_nonempty _ _ _ El)|] ];
    exact H4.
Qed.

Section LiveMetadata.

Variable World : Type.
Variable page_title : M World string.
Variable page_get_attribute : string -> string -> M World (option string).

(** A field lookup returns, and either leaves the record as it was or sets
    the field to a non-empty value. *)
Lemma try_field_attribute (sel name : string) (f : string -> Meta -> Meta)
  (m : Meta) (w : World) :
  exists m' w',
    try_field (x <- page_get_attribute sel name ;; ret (attr_if_truthy x))
      f m w = (Ok m', w') /\
    (m' = m \/ exists v, nonempty v = true /\ m' = f v m).
Proof.
  unfold try_field, try_except, bind, ret.
  destruct (page_get_attribute sel name w) as [[x|e] w1].
  - destruct (attr_if_truthy x) as [v|] eqn:E; simpl.
    + do 2 eexists; split; [reflexivity|]. right. exists v; split; auto.
      now apply attr_if_truthy_nonempty in E.
    + do 2 eexists; split; [reflexivity | now left].
  - do 2 eexists; split; [reflexivity | now left].
Qed.

Lemma title_lookup (w : World) :
  exists m0 w1,
    try_except (t <- page_title ;; ret (set_title t default_meta))
      (fun _ => ret default_meta) w = (Ok m0, w1) /\
    meta_ok m0 /\
    (forall t w', page_title w = (Ok t, w') -> title m0 = t) /\
    (forall e w', page_title w = (Raise e, w') -> title m0 = EmptyString).
Proof.
  unfold try_except, bind, ret.
  destruct (page_title w) as [[t|e] w1]; do 2 eexists;
    (split; [reflexivity|]); (split; [exact meta_ok_default|]);
    split; intros ? ? H; try discriminate; try reflexivity.
  injection H as <- _. reflexivity.
Qed.

(** The live extractor never raises, whatever the page does: a lookup that
    fails leaves its field at the default and the other fields as read.  The
    title is what [page.title()] returns, or empty when that call raises;
    the language and the canonical link are well formed. *)
Theorem extract_meta_js_never_raises (w : World) :
  exists m w',
    _extract_meta_js World page_title page_get_attribute w = (Ok m, w') /\
    meta_ok m /\
    (forall t w1, page_title w = (Ok t, w1) -> title m = t) /\
    (forall e w1, page_title w = (Raise e, w1) -> title m = EmptyString).
Proof.
  unfold _extract_meta_js.
  destruct (title_lookup w) as (m0 & w1 & E0 & Hok & Ht & He).
  unfold bind at 1. rewrite E0.
  destruct (try_field_attribute sel_meta_description "content"
              set_description m0 w1) as (m1 & w2 & E1 & H1).
  unfold bind at 1. rewrite E1.
  destruct (try_field_attribute "html" "lang"
              (fun lang => set_language (Py.take 2 lang)) m1 w2)
    as (m2 & w3 & E2 & H2).
  unfold bind at 1. rewrite E2.
  destruct (try_field_attribute sel_link_canonical "href"
              set_canonical m2 w3) as (m3 & w4 & E3 & H3).
  exists m3, w4. split; [exact E3|].
  assert (Hm1 : meta_ok m1 /\ title m1 = title m0)
    by (destruct H1 as [->|(v & _ & ->)]; split; auto).
  assert (Hm2 : meta_ok m2 /\ title m2 = title m0).
  { destruct Hm1 as [Hk Ht1].
    destruct H2 as [->|(v & Hv & ->)]; split; auto.
    now apply meta_ok_set_language. }
  assert (Hm3 : meta_ok m3 /\ title m3 = title m0).
  { destruct Hm2 as [Hk Ht2].
    destruct H3 as [->|(v & Hv & ->)]; split; auto.
    now apply meta_ok_set_canonical. }
  destruct Hm3 as [Hk3 Ht3]. split; [exact Hk3|].
  rewrite Ht3. split; assumption.
Qed.

End LiveMetadata.

(* ================================================================= *)
(** ** What [_js_scrape] returns *)

Section PlainRender.

Variable HTMLParser : string -> Tree.
Variable World : Type.
Variable new_page : M World unit.
Variable page_goto : string -> M World unit.
Variable page_content : M World string.
Variable page_title : M World string.
Variable page_get_attribute : string -> string -> M World (option string).
Variable page_close : M World unit.

Local Abbreviation meta_js :=
  (_extract_meta_js World page_title page_get_attribute).
Local Abbreviation js_scrape :=
  (_js_scrape HTMLParser World new_page page_goto page_content page_title
     page_get_attribute page_close).

Lemma meta_js_ok (w w' : World) (m : Meta) :
  meta_js w = (Ok m, w') -> meta_ok m.
Proof.
  intros H.
  destruct (extract_meta_js_never_raises World page_title page_get_attribute w)
    as (m' & w'' & E & Hok & _).
  rewrite E in H. injection H as <- _. exact Hok.
Qed.

Lemma harvest_ok (w w' : World) (html : string) (m : Meta) :
  harvest HTMLParser World page_content page_title page_get_attribute
    (fun _ (c : M World _) => c) w = (Ok (html, m), w') ->
  meta_ok m.
Proof.
  unfold harvest, try_except.
  match goal with
  | |- context [match ?b w with _ => _ end] =>
      destruct (b w) as [[[h0 m0]|e] w1] eqn:E
  end.
  - intros H; injection H as _ <- _.
    apply bind_ok_inv in E as (h & w2 & _ & E).
    apply bind_ok_inv in E as (m1 & w3 & Em & E).
    injection E as _ <- _. exact (meta_js_ok _ _ _ Em).
  - intros H; injection H as _ <- _. apply meta_static_well_formed.
Qed.

(** A render without interactions, when it returns, reports the untouched
    interaction log (no click, no scroll, the origin as only page), at most
    one error, of the render phase, and well-formed metadata. *)
Theorem js_scrape_result_shape (url0 : string) (w w' : World)
  (html : string) (m : Meta) (errs : list ScrapeError) (inter : Interactions) :
  js_scrape url0 w = (Ok (html, m, errs, inter), w') ->
  inter = no_interactions url0 /\ render_log errs /\ meta_ok m.
Proof.
  unfold _js_scrape. intros H.
  apply bind_ok_inv in H as ([] & w1 & _ & H).
  unfold try_except in H.
  match type of H with
  | context [match ?b w1 with _ => _ end] =>
      destruct (b w1) as [[r|e] w2] eqn:Eb
  end.
  - injection H as -> _.
    apply bind_ok_inv in Eb as ([] & w3 & _ & Eb).
    apply bind_ok_inv in Eb as (h & w4 & _ & Eb).
    apply bind_ok_inv in Eb as (m1 & w5 & Em & Eb).
    apply bind_ok_inv in Eb as ([] & w6 & _ & Eb).
    injection Eb as _ <- <- <- _.
    split; [reflexivity|]. split; [split; [simpl; lia | constructor]|].
    exact (meta_js_ok _ _ _ Em).
  - destruct e as [msg|msg].
    + apply bind_ok_inv in H as (h & w4 & _ & H).
      apply bind_ok_inv in H as (m1 & w5 & Em & H).
      apply bind_ok_inv in H as ([] & w6 & _ & H).
      injection H as _ <- <- <- _.
      split; [reflexivity|].
      split; [split; [simpl; lia | repeat constructor]|].
      exact (meta_js_ok _ _ _ Em).
    + apply bind_ok_inv in H as ([h m1] & w4 & Eh & H).
      apply bind_ok_inv in H as ([] & w6 & _ & H).
      injection H as _ <- <- <- _.
      split; [reflexivity|].
      split; [split; [simpl; lia | repeat constructor]|].
      exact (harvest_ok _ _ _ _ Eh).
Qed.

(** A navigation timeout is recorded, and the markup the page holds at that
    moment is harvested rather than discarded. *)
Theorem js_scrape_timeout_keeps_markup (url0 msg html : string)
  (w w1 w2 w3 w4 w5 : World) (m : Meta) :
  new_page w = (Ok tt, w1) ->
  page_goto url0 w1 = (Raise (PlaywrightTimeoutError msg), w2) ->
  page_content w2 = (Ok html, w3) ->
  meta_js w3 = (Ok m, w4) ->
  page_close w4 = (Ok tt, w5) ->
  js_scrape url0 w =
    (Ok (html, m,
         [mkError ("Timeout waiting for page load: " ++ msg)%string render],
         no_interactions url0), w5).
Proof.
  intros Hn Hg Hc Hm Hcl.
  unfold _js_scrape. unfold bind at 1. rewrite Hn.
  unfold try_except, bind at 1. rewrite Hg.
  unfold bind at 1. rewrite Hc.
  unfold bind at 1. rewrite Hm.
  unfold bind at 1. rewrite Hcl. reflexivity.
Qed.

End PlainRender.

Lemma js_scrape_result_shape_witness :
  exists html m errs inter w',
    Sim.js_scrape [Examples.og_page] "http://og.example/"
      (Examples.up [Examples.og_page]) = (Ok (html, m, errs, inter), w') /\
    inter = no_interactions "http://og.example/" /\
    render_log errs /\ meta_ok m.
Proof.
  do 5 eexists; split; [vm_compute; reflexivity|].
  eapply (js_scrape_result_shape (Sim.HTMLParser [Examples.og_page])
           Sim.World Sim.new_page Sim.page_goto Sim.page_content
           Sim.page_title Sim.page_get_attribute Sim.page_close
           "http://og.example/" (Examples.up [Examples.og_page])).
  vm_compute; reflexivity.
Defined.

Lemma js_scrape_timeout_keeps_markup_witness :
  SlowSim.js_scrape [Examples.og_page] "http://og.example/"
    (SlowSim.showing Examples.og_page)
  = (Ok (Sim.markup Examples.og_page,
         {| title := "Plain"; description := EmptyString; language := "en";
            canonical := None |},
         [mkError "Timeout waiting for page load: Timeout 30000ms exceeded"
            render],
         no_interactions "http://og.example/"),
     SlowSim.showing Examples.og_page).
Proof.
  apply (js_scrape_timeout_keeps_markup (Sim.HTMLParser [Examples.og_page])
           Sim.World Sim.new_page SlowSim.page_goto Sim.page_content
           Sim.page_title Sim.page_get_attribute Sim.page_close
           "http://og.example/" "Timeout 30000ms exceeded"
           (Sim.markup Examples.og_page)
           (SlowSim.showing Examples.og_page)
           (SlowSim.showing Examples.og_page)
           (SlowSim.showing Examples.og_page)
           (SlowSim.showing Examples.og_page)
           (SlowSim.showing Examples.og_page)
           (SlowSim.showing Examples.og_page));
    vm_compute; reflexivity.
Defined.

(* ================================================================= *)
(** ** Clicks and scrolls of [_js_scrape_for_interactions] *)

Section Counters.

Variable HTMLParser : string -> Tree.
Variable urljoin : string -> string -> string.
Variable World : Type.
Variable Handle : Type.
Variable new_page : M World unit.
Variable page_goto : string -> M World unit.
Variable page_content : M World string.
Variable page_title : M World string.
Variable page_get_attribute : string -> string -> M World (option string).
Variable page_close : M World unit.
Variable page_evaluate : string -> M World unit.
Variable page_query_selector : string -> M World (option Handle).
Variable page_query_selector_all : string -> M World (list Handle).
Variable handle_click : Handle -> M World unit.
Variable handle_get_attribute : Handle -> string -> M World (option string).
Variable url0 : string.

Lemma counts_mono (c c' k k' : nat) (l : Locals) :
  c <= c' -> k <= k' -> counts c k l -> counts c' k' l.
Proof. intros Hc Hk [H1 H2]; split; lia. Qed.

Lemma counts_click (c k : nat) (sel : string) (l : Locals) :
  counts c k l -> counts (S c) k (append_click sel l).
Proof.
  intros [H1 H2]; split; [|exact H2].
  simpl. rewrite length_app. simpl. lia.
Qed.

(** Each tab adds at most one click. *)
Lemma click_each_counts (k : nat) (tabs : list Handle) (c : nat) :
  triple (counts c k)
    (for_each tabs
       (fun tab =>
          try_pass (lift (handle_click tab) >>
                    set_locals (append_click sel_role_tab))))
    (counts (c + List.length tabs) k) any.
Proof.
  revert c; induction tabs as [|tab tabs IH]; intros c; cbn [for_each].
  - apply triple_skip. intros l; apply counts_mono; simpl; lia.
  - apply (triple_bind _ (counts (S c) k) _ any).
    + apply triple_try_pass.
      apply (triple_bind _ (counts c k) _ any).
      * apply triple_lift.
      * intros _ _. apply triple_set. intros l; apply counts_click.
      * intros l; apply counts_mono; lia.
    + intros _ _. replace (c + List.length (tab :: tabs))
        with (S c + List.length tabs) by (simpl; lia). apply IH.
    + intros l; apply counts_mono; simpl; lia.
Qed.

Lemma click_tabs_counts (tabs : list Handle) :
  triple (counts 0 0) (click_tabs World Handle handle_click tabs)
    (counts 3 0) any.
Proof.
  unfold click_tabs.
  apply (triple_weaken _ (counts (0 + List.length (firstn 3 tabs)) 0) _ any).
  - apply click_each_counts.
  - intros l; apply counts_mono; [|lia].
    pose proof (firstn_le_length 3 tabs). lia.
  - auto.
Qed.

(** One step of the scan: a selector that finds a button that can be
    clicked ends the scan; anything else passes on to the next selector. *)
Lemma click_load_more_step (selector : string) (rest : list string)
  (l : Locals) (w : World) :
  click_load_more World Handle page_query_selector handle_click
    (selector :: rest) (l, w)
  = match page_query_selector selector w with
    | (Ok (Some b), w1) =>
        match handle_click b w1 with
        | (Ok _, w2) => (Ok tt, (append_click selector l, w2))
        | (Raise _, w2) =>
            click_load_more World Handle page_query_selector handle_click
              rest (l, w2)
        end
    | (Ok None, w1) =>
        click_load_more World Handle page_query_selector handle_click
          rest (l, w1)
    | (Raise _, w1) =>
        click_load_more World Handle page_query_selector handle_click
          rest (l, w1)
    end.
Proof.
  cbn [click_load_more].
  unfold bind, try_except, lift, set_locals, ret; cbn [fst snd].
  destruct (page_query_selector selector w) as [[[b|]|e] w1];
    try reflexivity.
  cbv beta iota; cbn [fst snd].
  destruct (handle_click b w1) as [[[]|e] w2]; reflexivity.
Qed.

(** The scan of the load-more selectors clicks at most once and does not
    scroll. *)
Lemma click_load_more_once (selectors : list string) (l : Locals)
  (w : World) :
  let l' := fst (snd (click_load_more World Handle page_query_selector
                        handle_click selectors (l, w))) in
  List.length (l_clicks l') <= S (List.length (l_clicks l)) /\
  l_scrolls l' = l_scrolls l.
Proof.
  cbv zeta.
  revert w; induction selectors as [|selector rest IH]; intros w.
  - simpl. split; lia.
  - rewrite click_load_more_step.
    destruct (page_query_selector selector w) as [[[b|]|e] w1];
      try apply IH.
    destruct (handle_click b w1) as [[[]|e] w2]; [|apply IH].
    cbn [fst snd]. split; [|reflexivity].
    simpl. rewrite length_app. simpl. lia.
Qed.

Lemma click_load_more_counts (c k : nat) (selectors : list string) :
  triple (counts c k)
    (click_load_more World Handle page_query_selector handle_click selectors)
    (counts (S c) k) any.
Proof.
  intros l w [H1 H2].
  pose proof (click_load_more_once selectors l w) as [Hc Hs].
  split; [split; lia | intros; exact I].
Qed.

(** A round scrolls once and does not click. *)
Lemma scroll_round_counts (c k i : nat) :
  triple (counts c k)
    (scroll_round urljoin World Handle page_goto page_evaluate
       page_query_selector_all handle_get_attribute url0 i)
    (counts c (S k)) any.
Proof.
  assert (Hmono : forall l, counts c k l -> counts c (S k) l)
    by (intros l; apply counts_mono; lia).
  unfold scroll_round.
  apply (triple_bind _ (counts c k) _ any); auto using triple_lift.
  intros _ _.
  apply (triple_bind _ (counts c (S k)) _ any); auto.
  { apply triple_set. intros l [H1 H2]; split; simpl; lia. }
  intros _ _.
  apply (triple_bind _ (counts c (S k)) _ any); auto using triple_lift.
  intros [|first rest] _; [now apply triple_skip|].
  destruct (i <? 2); [|now apply triple_skip].
  apply triple_try_pass.
  apply (triple_bind _ (counts c (S k)) _ any); auto using triple_lift.
  intros [[|ch u]|] _; try (now apply triple_skip).
  apply (triple_bind _ (counts c (S k)) _ any); auto.
  { intros l0 w0 H0; simpl; split; [exact H0 | intros; exact I]. }
  intros l _.
  destruct (negb (mem (urljoin url0 (String ch u)) (pages_visited l)));
    [|now apply triple_skip].
  apply (triple_bind _ (counts c (S k)) _ any);
    auto using triple_lift, triple_set.
Qed.

Lemma triple_lift_val {A} (P : Locals -> Prop) (V : A -> Prop)
  (m : M World A) :
  (forall w a w', m w = (Ok a, w') -> V a) ->
  triple P (lift m) P V.
Proof.
  intros HV l w HP. unfold lift; simpl.
  destruct (m w) as [r w'] eqn:E; simpl. split; [exact HP|].
  intros a ->. eapply HV; eauto.
Qed.

Lemma harvest_meta_ok (P : Locals -> Prop) :
  triple P
    (harvest HTMLParser World page_content page_title page_get_attribute
       (fun _ (m : M World _) => lift m))
    P (fun hm => meta_ok (snd hm)).
Proof.
  unfold harvest. apply (triple_try _ P); auto.
  - apply (triple_bind _ P _ any); auto using triple_lift.
    intros html _.
    apply (triple_bind _ P _ meta_ok); auto.
    + apply triple_lift_val. intros w a w' H.
      exact (meta_js_ok World page_title page_get_attribute _ _ _ H).
    + intros m Hm. now apply triple_ret.
  - intros e. apply triple_ret. apply meta_static_well_formed.
Qed.

Ltac cmono := intros ?l; apply counts_mono; lia.
Ltac cstep Q := apply (triple_bind _ Q _ any); [ | | try cmono ].

(** The interaction log [_js_scrape_for_interactions] returns holds at most
    4 clicks (three tabs and one load-more button) and at most 3 scrolls;
    the error log holds at most one error, of the render phase; the
    metadata are well formed. *)
Theorem interaction_counters_bounded (w w' : World) (html : string)
  (m : Meta) (errs : list ScrapeError) (inter : Interactions) :
  _js_scrape_for_interactions HTMLParser urljoin World Handle new_page
    page_goto page_content page_title page_get_attribute page_close
    page_evaluate page_query_selector page_query_selector_all handle_click
    handle_get_attribute url0 w = (Ok (html, m, errs, inter), w') ->
  List.length (clicks inter) <= 4 /\ scrolls inter <= 3 /\
  render_log errs /\ meta_ok m.
Proof.
  unfold _js_scrape_for_interactions. intros H.
  apply bind_ok_inv in H as ([] & w1 & _ & H).
  unfold with_locals in H.
  match type of H with
  | context [try_except ?body ?handler] =>
      assert (T : triple (counts 0 0) (try_except body handler) (counts 4 3)
                    (fun r : Rendered =>
                       List.length (clicks (snd r)) <= 4 /\
                       scrolls (snd r) <= 3 /\
                       render_log (snd (fst r)) /\
                       meta_ok (snd (fst (fst r)))))
  end.
  { apply (triple_try _ (counts 4 3)); auto.
    - cstep (counts 0 0); [apply triple_lift | intros _ _].
      cstep (counts 0 0); [apply triple_lift | intros tabs _].
      cstep (counts 3 0); [apply click_tabs_counts | intros _ _].
      cstep (counts 4 0); [apply click_load_more_counts | intros _ _].
      cstep (counts 4 3); [| intros _ _].
      { cbn [for_each].
        cstep (counts 4 1); [apply scroll_round_counts | intros _ _].
        cstep (counts 4 2); [apply scroll_round_counts | intros _ _].
        cstep (counts 4 3); [apply scroll_round_counts | intros _ _].
        now apply triple_skip. }
      cstep (counts 4 3); [apply triple_lift | intros html1 _].
      apply (triple_bind _ (counts 4 3) _ meta_ok); auto.
      { apply triple_lift_val. intros w0 a w0' Hm.
        exact (meta_js_ok World page_title page_get_attribute _ _ _ Hm). }
      intros m1 Hm1.
      apply (triple_bind _ (counts 4 3) _ (counts 4 3));
        [apply triple_locals | intros l [Hc Hs] | auto].
      cstep (counts 4 3); [apply triple_lift | intros _ _].
      apply triple_ret. cbn [fst snd].
      split; [exact Hc|]. split; [exact Hs|].
      split; [split; [simpl; lia | constructor] | exact Hm1].
    - intros e.
      apply (triple_bind _ (counts 4 3) _ (fun hm => meta_ok (snd hm)));
        [apply harvest_meta_ok | intros [html1 m1] Hm1 | auto].
      apply (triple_bind _ (counts 4 3) _ (counts 4 3));
        [apply triple_locals | intros l [Hc Hs] | auto].
      cstep (counts 4 3); [apply triple_lift | intros _ _].
      apply triple_ret. cbn [fst snd].
      split; [exact Hc|]. split; [exact Hs|].
      split; [split; [simpl; lia | repeat constructor] | exact Hm1]. }
  destruct (T (mkLocals [] 0 [url0]) w1) as [_ HV].
  { split; simpl; lia. }
  match type of H with
  | context [match ?x with _ => _ end] => destruct x as [r [l1 w2]] eqn:E
  end.
  injection H as -> _.
  exact (HV _ eq_refl).
Qed.

End Counters.

Lemma interaction_counters_bounded_witness :
  exists html m errs inter w',
    BusySim.js_scrape_for_interactions Examples.catalogue
      "http://shop.example/1" (Examples.up Examples.catalogue)
    = (Ok (html, m, errs, inter), w') /\
    clicks inter = [sel_role_tab; sel_role_tab; class_contains "load-more"] /\
    scrolls inter = 3 /\
    List.length (clicks inter) <= 4 /\ scrolls inter <= 3 /\
    render_log errs /\ meta_ok m.
Proof.
  do 5 eexists; split; [vm_compute; reflexivity|].
  split; [reflexivity|]. split; [reflexivity|].
  eapply (interaction_counters_bounded
            (Sim.HTMLParser Examples.catalogue) Sim.urljoin
            Sim.World Sim.Handle Sim.new_page Sim.page_goto Sim.page_content
            Sim.page_title Sim.page_get_attribute Sim.page_close
            Sim.page_evaluate BusySim.page_query_selector
            BusySim.page_query_selector_all BusySim.handle_click
            Sim.handle_get_attribute "http://shop.example/1"
            (Examples.up Examples.catalogue)).
  vm_compute; reflexivity.
Defined.

(* ================================================================= *)
(** ** Invariants of every scrape result *)

Section ScrapeInvariants.

Variable HTMLParser : string -> Tree.
Variable urljoin : string -> string -> string.
Variable html_of : Node -> string.
Variable World : Type.
Variable Handle : Type.
Variable utcnow_iso : World -> string.
Variable http_get : string -> M World string.
Variable new_page : M World unit.
Variable page_goto : string -> M World unit.
Variable page_content : M World string.
Variable page_title : M World string.
Variable page_get_attribute : string -> string -> M World (option string).
Variable page_close : M World unit.
Variable page_evaluate : string -> M World unit.
Variable page_query_selector : string -> M World (option Handle).
Variable page_query_selector_all : string -> M World (list Handle).
Variable handle_click : Handle -> M World unit.
Variable handle_get_attribute : Handle -> string -> M World (option string).

Local Abbreviation static_scrape := (_static_scrape HTMLParser World http_get).
Local Abbreviation js_scrape :=
  (_js_scrape HTMLParser World new_page page_goto page_content page_title
     page_get_attribute page_close).
Local Abbreviation js_scrape_for_interactions :=
  (_js_scrape_for_interactions HTMLParser urljoin World Handle new_page
     page_goto page_content page_title page_get_attribute page_close
     page_evaluate page_query_selector page_query_selector_all handle_click
     handle_get_attribute).
Local Abbreviation fallback :=
  (scrape_fallback HTMLParser World new_page page_goto page_content
     page_title page_get_attribute page_close).
Local Abbreviation fetch_all :=
  (scrape_fetch HTMLParser urljoin World Handle http_get new_page page_goto
     page_content page_title page_get_attribute page_close page_evaluate
     page_query_selector page_query_selector_all handle_click
     handle_get_attribute).
Local Abbreviation scrape_url :=
  (scrape HTMLParser urljoin html_of World Handle utcnow_iso http_get new_page
     page_goto page_content page_title page_get_attribute page_close
     page_evaluate page_query_selector page_query_selector_all handle_click
     handle_get_attribute).

Local Abbreviation visited url0 k :=
  (fun l : Locals => pages_ok url0 k (pages_visited l)).

Ltac pmono := intros ?l; apply pages_ok_mono; lia.
Ltac pstep url0 k :=
  apply (triple_bind _ (visited url0 k) _ any); [ | | try (now auto); try pmono ].

(** The visited pages of the render with interactions, as a lemma on
    its result. *)
Lemma interaction_pages_ok (url0 : string) (w w' : World) (r : Rendered) :
  js_scrape_for_interactions url0 w = (Ok r, w') ->
  pages_ok url0 3 (pages (snd r)).
Proof.
  unfold _js_scrape_for_interactions. intros H.
  apply bind_ok_inv in H as ([] & w1 & _ & H).
  unfold with_locals in H.
  match type of H with
  | context [try_except ?body ?handler] =>
      assert (T : triple (visited url0 1) (try_except body handler)
                    (visited url0 3)
                    (fun r : Rendered => pages_ok url0 3 (pages (snd r))))
  end.
  { apply (triple_try _ (visited url0 3)); auto.
    - pstep url0 1; [apply triple_lift | intros _ _].
      pstep url0 1; [apply triple_lift | intros tabs _].
      pstep url0 1; [apply click_tabs_visited | intros _ _].
      pstep url0 1; [apply click_load_more_visited | intros _ _].
      pstep url0 3;
        [apply (rounds_visited HTMLParser urljoin World Handle page_goto
                  page_get_attribute page_evaluate page_query_selector)
        | intros _ _].
      pstep url0 3; [apply triple_lift | intros ? _].
      pstep url0 3; [apply triple_lift | intros ? _].
      apply (triple_bind _ (visited url0 3) _ (visited url0 3));
        [apply triple_locals | intros l Hl | auto].
      pstep url0 3; [apply triple_lift | intros ? _].
      now apply triple_ret.
    - intros e.
      pstep url0 3; [apply harvest_visited | intros [html1 m1] _].
      apply (triple_bind _ (visited url0 3) _ (visited url0 3));
        [apply triple_locals | intros l Hl | auto].
      pstep url0 3; [apply triple_lift | intros ? _].
      now apply triple_ret. }
  destruct (T (mkLocals [] 0 [url0]) w1) as [_ HV].
  { repeat split; simpl; auto. repeat constructor; simpl; tauto. }
  match type of H with
  | context [match ?x with _ => _ end] => destruct x as [r0 [l1 w2]] eqn:E
  end.
  injection H as -> _.
  exact (HV _ eq_refl).
Qed.

Lemma pages_ok_origin (url0 : string) : pages_ok url0 3 [url0].
Proof.
  split; [reflexivity|]. split; [|simpl; lia].
  repeat constructor; simpl; tauto.
Qed.

Lemma render_log_errors_after (pre js : list ScrapeError) :
  (pre = [] \/ exists msg, pre = [mkError msg fetch]) ->
  render_log js -> error_log_ok (pre ++ js).
Proof. intros Hp Hj. exists pre, js; auto. Qed.

Lemma js_scrape_rendered_ok (url0 : string) (pre : list ScrapeError)
  (w w' : World) (r : Rendered) :
  (pre = [] \/ exists msg, pre = [mkError msg fetch]) ->
  js_scrape url0 w = (Ok r, w') -> rendered_ok url0 (merge pre r).
Proof.
  intros Hp H. destruct r as [[[html m] errs] inter].
  destruct (js_scrape_result_shape _ _ _ _ _ _ _ _ _ _ _ _ _ _ _ H)
    as (-> & Hlog & Hm).
  unfold rendered_ok; cbn [merge fst snd no_interactions pages clicks scrolls].
  split; [apply pages_ok_origin|]. split; [simpl; lia|]. split; [lia|].
  split; [now apply render_log_errors_after | exact Hm].
Qed.

Lemma interactions_rendered_ok (url0 : string) (w w' : World) (r : Rendered) :
  js_scrape_for_interactions url0 w = (Ok r, w') ->
  rendered_ok url0 (merge [] r).
Proof.
  intros H. pose proof (interaction_pages_ok _ _ _ _ H) as Hp.
  destruct r as [[[html m] errs] inter].
  destruct (interaction_counters_bounded _ _ _ _ _ _ _ _ _ _ _ _ _ _ _ _
              _ _ _ _ _ _ H) as (Hc & Hs & Hlog & Hm).
  unfold rendered_ok; cbn [merge fst snd] in *.
  repeat (split; [assumption|]).
  split; [|exact Hm].
  apply (render_log_errors_after []); auto.
Qed.

(** Whatever [scrape_fetch] leaves is well formed. *)
Lemma scrape_fetch_rendered_ok (url0 : string) (w w' : World) (r : Rendered) :
  fetch_all url0 w = (Ok r, w') -> rendered_ok url0 r.
Proof.
  unfold scrape_fetch, try_except.
  match goal with
  | |- context [match ?b w with _ => _ end] =>
      destruct (b w) as [[r0|e] w1] eqn:Eb
  end.
  - intros H; injection H as -> _.
    apply bind_ok_inv in Eb as ([html m] & w2 & _ & Eb).
    destruct (needs_full_render HTMLParser html).
    + apply bind_ok_inv in Eb as (r1 & w3 & Hj & Eb).
      injection Eb as <- _. eapply js_scrape_rendered_ok; eauto.
    + apply bind_ok_inv in Eb as (r1 & w3 & Hj & Eb).
      injection Eb as <- _. eapply interactions_rendered_ok; eauto.
  - unfold scrape_fallback, try_except.
    match goal with
    | |- context [match ?b w1 with _ => _ end] =>
        destruct (b w1) as [[r0|e2] w2] eqn:Ef
    end.
    + intros H; injection H as -> _.
      apply bind_ok_inv in Ef as (r1 & w3 & Hj & Ef).
      injection Ef as <- _. eapply js_scrape_rendered_ok; eauto.
    + intros H; injection H as <- _.
      unfold rendered_ok; cbn [fst snd pages clicks scrolls].
      split; [apply pages_ok_origin|]. split; [simpl; lia|]. split; [lia|].
      split; [|apply meta_static_well_formed].
      eexists [_], [_]. split; [reflexivity|]. split; [eauto|].
      split; [simpl; lia | repeat constructor].
Qed.

(** Every result of [scrape] carries the requested URL and the time read
    at the start; its visited pages start with that URL, repeat none and are
    at most 3; it logs at most 4 clicks and 3 scrolls; its error log is at
    most one fetch-phase error followed by at most one render-phase error;
    its metadata are well formed; and it has at most 20 sections, all with
    the requested URL as source. *)
Theorem scrape_result_invariants (url0 : string) (w w' : World)
  (r : ScrapeResult) :
  scrape_url url0 w = (Ok r, w') ->
  url r = url0 /\ scrapedAt r = utcnow_iso w /\
  pages_ok url0 3 (pages (interactions r)) /\
  List.length (clicks (interactions r)) <= 4 /\
  scrolls (interactions r) <= 3 /\
  error_log_ok (errors r) /\ meta_ok (meta r) /\
  List.length (sections r) <= 20 /\
  Forall (fun s => sourceUrl s = url0) (sections r).
Proof.
  unfold scrape, bind, lift_result, ret.
  destruct (fetch_all url0 w) as [[[[[html m] errs] inter]|e] w1] eqn:Ef;
    [|discriminate].
  destruct (_parse_sections HTMLParser urljoin html_of html url0)
    as [secs|e] eqn:Ep; [|discriminate].
  intros H; injection H as <- _.
  cbn [url scrapedAt interactions errors meta sections].
  destruct (scrape_fetch_rendered_ok _ _ _ _ Ef) as (Hp & Hc & Hs & He & Hm).
  destruct (parse_sections_at_most_20 _ _ _ _ _ _ Ep) as [Hlen Hsrc].
  cbn [fst snd] in *.
  repeat (split; [assumption || reflexivity|]). exact Hsrc.
Qed.

(** The [except] clause of [scrape] also covers the render that follows a
    successful static scrape: when the browser cannot open a page, the
    result logs a fetch-phase error ("Static scrape failed") although the
    static scrape succeeded, the fetched markup is dropped, and, if the
    browser fails again in the fallback, the sections are the placeholder. *)
Theorem browser_failure_logged_as_fetch_failure (url0 html : string)
  (m : Meta) (w w1 w2 w3 : World) (e e2 : exn) :
  static_scrape url0 w = (Ok (html, m), w1) ->
  new_page w1 = (Raise e, w2) ->
  new_page w2 = (Raise e2, w3) ->
  exists r,
    scrape_url url0 w = (Ok r, w3) /\
    errors r =
      [ mkError ("Static scrape failed: " ++ str_exn e)%string fetch;
        mkError ("JS scrape failed: " ++ str_exn e2)%string render ] /\
    sections r = [empty_section url0] /\
    meta r = _extract_meta_static HTMLParser EmptyString /\
    interactions r = no_interactions url0.
Proof.
  intros Hs Hn Hn2.
  assert (Hf : fetch_all url0 w =
               (Ok (EmptyString, _extract_meta_static HTMLParser EmptyString,
                    [ mkError ("Static scrape failed: " ++ str_exn e)%string
                        fetch;
                      mkError ("JS scrape failed: " ++ str_exn e2)%string
                        render ],
                    no_interactions url0), w3)).
  { unfold scrape_fetch, try_except, bind at 1. rewrite Hs.
    assert (Hr : forall k : Rendered -> M World Rendered,
               (if needs_full_render HTMLParser html
                then bind (js_scrape url0) k
                else bind (js_scrape_for_interactions url0) k) w1
               = (Raise e, w2)).
    { intros k. destruct (needs_full_render HTMLParser html).
      - unfold bind at 1, _js_scrape, bind at 1. now rewrite Hn.
      - unfold bind at 1, _js_scrape_for_interactions, bind at 1.
        now rewrite Hn. }
    rewrite Hr.
    unfold scrape_fallback, try_except, bind at 1, _js_scrape, bind at 1.
    now rewrite Hn2. }
  eexists; split.
  - unfold scrape, bind. rewrite Hf. reflexivity.
  - repeat split.
Qed.

End ScrapeInvariants.

Lemma scrape_result_invariants_witness :
  exists r w',
    Sim.run Examples.catalogue "http://shop.example/1"
      (Examples.up Examples.catalogue) = (Ok r, w') /\
    url r = "http://shop.example/1" /\
    scrapedAt r = Sim.utcnow_iso (Examples.up Examples.catalogue) /\
    pages_ok "http://shop.example/1" 3 (pages (interactions r)) /\
    List.length (clicks (interactions r)) <= 4 /\
    scrolls (interactions r) <= 3 /\
    error_log_ok (errors r) /\ meta_ok (meta r) /\
    List.length (sections r) <= 20 /\
    Forall (fun s => sourceUrl s = "http://shop.example/1") (sections r).
Proof.
  do 2 eexists; split; [vm_compute; reflexivity|].
  eapply (scrape_result_invariants
            (Sim.HTMLParser Examples.catalogue) Sim.urljoin Sim.html_of
            Sim.World Sim.Handle Sim.utcnow_iso Sim.http_get Sim.new_page
            Sim.page_goto Sim.page_content Sim.page_title
            Sim.page_get_attribute Sim.page_close Sim.page_evaluate
            Sim.page_query_selector Sim.page_query_selector_all
            Sim.handle_click Sim.handle_get_attribute
            "http://shop.example/1" (Examples.up Examples.catalogue)).
  vm_compute; reflexivity.
Defined.

Lemma browser_failure_logged_as_fetch_failure_witness :
  let w := Sim.mkWorld [Examples.main_page] true false None in
  exists r,
    Sim.static_scrape [Examples.main_page] "http://docs.example/" w
      = (Ok (Sim.markup Examples.main_page, default_meta), w) /\
    Sim.run [Examples.main_page] "http://docs.example/" w = (Ok r, w) /\
    map phase (errors r) = [fetch; render] /\
    sections r = [empty_section "http://docs.example/"].
Proof.
  cbv zeta.
  assert (Hs : Sim.static_scrape [Examples.main_page] "http://docs.example/"
                 (Sim.mkWorld [Examples.main_page] true false None)
               = (Ok (Sim.markup Examples.main_page, default_meta),
                  Sim.mkWorld [Examples.main_page] true false None))
    by (vm_compute; reflexivity).
  destruct (browser_failure_logged_as_fetch_failure
              (Sim.HTMLParser [Examples.main_page]) Sim.urljoin Sim.html_of
              Sim.World Sim.Handle Sim.utcnow_iso Sim.http_get Sim.new_page
              Sim.page_goto Sim.page_content Sim.page_title
              Sim.page_get_attribute Sim.page_close Sim.page_evaluate
              Sim.page_query_selector Sim.page_query_selector_all
              Sim.handle_click Sim.handle_get_attribute
              "http://docs.example/" _ _ _ _ _ _
              (Exception "Executable does not exist")
              (Exception "Executable does not exist") Hs eq_refl eq_refl)
    as (r & Hr & He & Hsec & _).
  exists r. split; [exact Hs|]. split; [exact Hr|].
  rewrite He, Hsec. split; reflexivity.
Defined.

(* ================================================================= *)
(** ** When the section loop raises *)





Lemma subnodes_self (n : Node) : In n (subnodes n).
Proof. destruct n; left; reflexivity. Qed.







Section SectionLoop.

Variable HTMLParser : string -> Tree.
Variable urljoin : string -> string -> string.
Variable html_of : Node -> string.

Local Abbreviation extract := (_extract_section urljoin html_of).
Local Abbreviation parse := (_parse_sections HTMLParser urljoin html_of).





End SectionLoop.


Section ScrapeFailure.

Variable HTMLParser : string -> Tree.
Variable urljoin : string -> string -> string.
Variable html_of : Node -> string.
Variable World : Type.
Variable Handle : Type.
Variable utcnow_iso : World -> string.
Variable http_get : string -> M World string.
Variable new_page : M World unit.
Variable page_goto : string -> M World unit.
Variable page_content : M World string.
Variable page_title : M World string.
Variable page_get_attribute : string -> string -> M World (option string).
Variable page_close : M World unit.
Variable page_evaluate : string -> M World unit.
Variable page_query_selector : string -> M World (option Handle).
Variable page_query_selector_all : string -> M World (list Handle).
Variable handle_click : Handle -> M World unit.
Variable handle_get_attribute : Handle -> string -> M World (option string).

Local Abbreviation fetch_all :=
  (scrape_fetch HTMLParser urljoin World Handle http_get new_page page_goto
     page_content page_title page_get_attribute page_close page_evaluate
     page_query_selector page_query_selector_all handle_click
     handle_get_attribute).
Local Abbreviation scrape_url :=
  (scrape HTMLParser urljoin html_of World Handle utcnow_iso http_get new_page
     page_goto page_content page_title page_get_attribute page_close
     page_evaluate page_query_selector page_query_selector_all handle_click
     handle_get_attribute).
Local Abbreviation parse := (_parse_sections HTMLParser urljoin html_of).




End ScrapeFailure.

(* ================================================================= *)
(** ** Noise removal on clean trees *)

Lemma prune_all_id (sel : selector) (cs : list Node) :
  Forall (fun c => (forall m, In m (subnodes c) -> matches sel m = false) ->
                   prune sel c = c) cs ->
  (forall m, In m (flat_map subnodes cs) -> matches sel m = false) ->
  prune_all sel cs = cs.
Proof.
  induction 1 as [|c cs Hc _ IH]; intros Hno; cbn [prune_all];
    [reflexivity|].
  cbn [flat_map] in Hno.
  rewrite (Hno c) by (apply in_or_app; left; apply subnodes_self).
  rewrite Hc by (intros m Hm; apply Hno, in_or_app; now left).
  rewrite IH by (intros m Hm; apply Hno, in_or_app; now right).
  reflexivity.
Qed.

(** Pruning a subtree that holds no match changes nothing. *)
Lemma prune_id (sel : selector) (n : Node) :
  (forall m, In m (subnodes n) -> matches sel m = false) -> prune sel n = n.
Proof.
  induction n as [d|t a cs IH] using Node_forall_ind; [reflexivity|].
  rewrite prune_element, subnodes_element. intros Hno.
  f_equal. apply prune_all_id; [exact IH|].
  intros m Hm. apply Hno. now right.
Qed.

Lemma decompose_id (p : Tree) (sel : selector) :
  (forall m, In m (tree_nodes p) -> matches sel m = false) ->
  decompose_matching p sel = p.
Proof.
  unfold decompose_matching. destruct p as [[r|]]; cbn [root]; [|reflexivity].
  rewrite (tree_nodes_root (mkTree (Some r)) r eq_refl). intros Hno.
  rewrite (Hno r (subnodes_self r)), (prune_id sel r Hno). reflexivity.
Qed.

Lemma fold_decompose_id (sels : list selector) (p : Tree) :
  (forall m sel, In m (tree_nodes p) -> In sel sels ->
                 matches sel m = false) ->
  fold_left decompose_matching sels p = p.
Proof.
  induction sels as [|sel sels IH]; intros Hno; cbn [fold_left];
    [reflexivity|].
  rewrite decompose_id by (intros m Hm; apply Hno; simpl; auto).
  apply IH. intros m s Hm Hs. apply Hno; simpl; auto.
Qed.

(** [remove_noise] leaves a tree without noise as it is. *)
Theorem remove_noise_keeps_clean_tree (p : Tree) :
  noise_free p = true -> remove_noise p = p.
Proof.
  unfold noise_free. rewrite forallb_forall. intros Hp.
  apply fold_decompose_id. intros m sel Hm Hsel.
  specialize (Hp m Hm). apply negb_true_iff in Hp.
  destruct (matches sel m) eqn:E; [|reflexivity].
  rewrite <- Hp. symmetry. apply existsb_exists. now exists sel.
Qed.

(** Removing the noise a second time removes nothing: pruning for one
    selector brings no match for another. *)
Theorem remove_noise_idempotent (p : Tree) :
  remove_noise (remove_noise p) = remove_noise p.
Proof.
  apply fold_decompose_id. intros m sel Hm Hsel.
  now apply remove_noise_unmatched with (p := p).
Qed.





Lemma remove_noise_keeps_clean_tree_witness :
  remove_noise (Sim.tree Examples.headings_page)
  = Sim.tree Examples.headings_page.
Proof.
  apply (remove_noise_keeps_clean_tree (Sim.tree Examples.headings_page)).
  vm_compute; reflexivity.
Defined.

(* ================================================================= *)
(** ** The log of clicks and scrolls *)

Section Ends.

Context {W : Type}.

Local Abbreviation IM := (M (Locals * W)).

Lemma ends_ret {A} (P : Locals -> Prop) (Q : A -> Locals -> Prop)
  (E : Locals -> Prop) (a : A) :
  (forall l, P l -> Q a l) -> ends (W:=W) P (ret a) Q E.
Proof. intros H l w HP; simpl; auto. Qed.

Lemma ends_bind {A B} (P : Locals -> Prop) (Q : A -> Locals -> Prop)
  (R : B -> Locals -> Prop) (E : Locals -> Prop) (m : IM A) (k : A -> IM B) :
  ends P m Q E -> (forall a, ends (Q a) (k a) R E) -> ends P (bind m k) R E.
Proof.
  intros Hm Hk l w HP. unfold bind. specialize (Hm l w HP).
  destruct (m (l, w)) as [[a|e] [l1 w1]]; simpl in Hm.
  - exact (Hk a l1 w1 Hm).
  - exact Hm.
Qed.

Lemma ends_try {A} (P : Locals -> Prop) (Q : A -> Locals -> Prop)
  (E E' : Locals -> Prop) (m : IM A) (h : exn -> IM A) :
  ends P m Q E -> (forall e, ends E (h e) Q E') ->
  ends P (try_except m h) Q E'.
Proof.
  intros Hm Hh l w HP. unfold try_except. specialize (Hm l w HP).
  destruct (m (l, w)) as [[a|e] [l1 w1]]; simpl in Hm.
  - exact Hm.
  - exact (Hh e l1 w1 Hm).
Qed.

Lemma ends_weaken {A} (P P' : Locals -> Prop) (Q Q' : A -> Locals -> Prop)
  (E E' : Locals -> Prop) (m : IM A) :
  ends P m Q E ->
  (forall l, P' l -> P l) -> (forall a l, Q a l -> Q' a l) ->
  (forall l, E l -> E' l) ->
  ends P' m Q' E'.
Proof.
  intros Hm HP HQ HE l w Hl. specialize (Hm l w (HP l Hl)).
  destruct (m (l, w)) as [[a|e] s]; auto.
Qed.

(** A call into the world leaves the locals as they are, whether it returns
    or raises. *)
Lemma ends_lift {A} (P : Locals -> Prop) (m : M W A) :
  ends P (lift m) (fun _ => P) P.
Proof.
  intros l w HP. unfold lift; simpl.
  destruct (m w) as [[a|e] w']; exact HP.
Qed.

Lemma ends_set (P Q E : Locals -> Prop) (f : Locals -> Locals) :
  (forall l, P l -> Q (f l)) -> ends (W:=W) P (set_locals f) (fun _ => Q) E.
Proof. intros H l w HP; simpl; auto. Qed.

Lemma ends_locals (P E : Locals -> Prop) :
  ends (W:=W) P locals (fun a l => a = l /\ P l) E.
Proof. intros l w HP; simpl; auto. Qed.

End Ends.

Section ClickLog.

Variable HTMLParser : string -> Tree.
Variable urljoin : string -> string -> string.
Variable World : Type.
Variable Handle : Type.
Variable new_page : M World unit.
Variable page_goto : string -> M World unit.
Variable page_content : M World string.
Variable page_title : M World string.
Variable page_get_attribute : string -> string -> M World (option string).
Variable page_close : M World unit.
Variable page_evaluate : string -> M World unit.
Variable page_query_selector : string -> M World (option Handle).
Variable page_query_selector_all : string -> M World (list Handle).
Variable handle_click : Handle -> M World unit.
Variable handle_get_attribute : Handle -> string -> M World (option string).
Variable url0 : string.

Lemma tabs_only_logged (c : nat) (l : Locals) :
  c <= 3 -> tabs_only c l -> logged l.
Proof.
  intros Hc [(k & Hk & E) _]. exists k, []. rewrite app_nil_r.
  repeat split; auto; lia.
Qed.

Lemma tabs_only_mono (c c' : nat) (l : Locals) :
  c <= c' -> tabs_only c l -> tabs_only c' l.
Proof.
  intros Hc [(k & Hk & E) Hs]. split; [exists k; split; [lia|]|]; auto.
Qed.

(** Each tab that can be clicked adds one tab marker, whatever part of the
    selector found it. *)
Lemma click_each_log (tabs : list Handle) (c : nat) :
  ends (tabs_only c)
    (for_each tabs
       (fun tab =>
          try_pass (lift (handle_click tab) >>
                    set_locals (append_click sel_role_tab))))
    (fun _ => tabs_only (c + List.length tabs))
    (tabs_only (c + List.length tabs)).
Proof.
  revert c; induction tabs as [|tab tabs IH]; intros c; cbn [for_each].
  - apply ends_ret. intros l; apply tabs_only_mono; lia.
  - apply (ends_bind _ (fun _ => tabs_only (S c))).
    + unfold try_pass.
      apply (ends_try _ _ (tabs_only (S c))).
      * apply (ends_bind _ (fun _ => tabs_only c)).
        -- eapply ends_weaken; [apply (ends_lift (tabs_only c)) | | |]; auto.
           intros l; apply tabs_only_mono; lia.
        -- intros _. apply ends_set.
           intros l [(k & Hk & E) Hs]. split; [|exact Hs].
           exists (S k). split; [lia|]. cbn [append_click l_clicks].
           rewrite E. symmetry. apply repeat_cons.
      * intros _. apply ends_ret. auto.
    + intros _. cbn [List.length].
      replace (c + S (List.length tabs)) with (S c + List.length tabs) by lia.
      apply IH.
Qed.

Lemma click_tabs_log (tabs : list Handle) :
  ends (tabs_only 0) (click_tabs World Handle handle_click tabs)
    (fun _ => tabs_only 3) (tabs_only 3).
Proof.
  unfold click_tabs.
  pose proof (firstn_le_length 3 tabs) as Hlen.
  eapply ends_weaken; [apply (click_each_log (firstn 3 tabs) 0) | | |];
    auto; intros; eapply tabs_only_mono; try eassumption; simpl; lia.
Qed.

(** The scan of the load-more selectors returns, having recorded nothing or
    the one selector whose button it clicked. *)
Lemma click_load_more_log (selectors : list string) (l : Locals)
  (w : World) :
  exists l' w',
    click_load_more World Handle page_query_selector handle_click selectors
      (l, w) = (Ok tt, (l', w')) /\
    l_scrolls l' = l_scrolls l /\
    (l_clicks l' = l_clicks l \/
     exists s, In s selectors /\ l_clicks l' = (l_clicks l ++ [s])%list).
Proof.
  revert w; induction selectors as [|selector rest IH]; intros w.
  - exists l, w. simpl; auto.
  - rewrite click_load_more_step.
    assert (Hrest : forall w1,
      exists l' w',
        click_load_more World Handle page_query_selector handle_click rest
          (l, w1) = (Ok tt, (l', w')) /\
        l_scrolls l' = l_scrolls l /\
        (l_clicks l' = l_clicks l \/
         exists s, In s (selector :: rest) /\
                   l_clicks l' = (l_clicks l ++ [s])%list)).
    { intros w1. destruct (IH w1) as (l' & w' & E & Hs & Hc).
      exists l', w'. repeat split; auto.
      destruct Hc as [Hc|(s & Hin & Hc)]; [now left|].
      right; exists s; simpl; auto. }
    destruct (page_query_selector selector w) as [[[b|]|e] w1];
      try apply Hrest.
    destruct (handle_click b w1) as [[[]|e] w2]; [|apply Hrest].
    eexists _, _. split; [reflexivity|]. split; [reflexivity|].
    right. exists selector. simpl; auto.
Qed.

Lemma click_load_more_ends (selectors : list string) :
  incl selectors load_more_selectors ->
  ends (tabs_only 3)
    (click_load_more World Handle page_query_selector handle_click selectors)
    (fun _ => scrolled 0) logged.
Proof.
  intros Hincl l w [(k & Hk & E) Hs].
  destruct (click_load_more_log selectors l w) as (l' & w' & -> & Hs' & Hc).
  cbn [fst]. split; [|congruence].
  destruct Hc as [Hc|(s & Hin & Hc)]; rewrite Hc, E.
  - exists k, []. rewrite app_nil_r; auto.
  - exists k, [s]. repeat split; auto. right; exists s; auto.
Qed.

(** A round scrolls once and records no click. *)
Lemma scroll_round_log (n i : nat) :
  ends (scrolled n)
    (scroll_round urljoin World Handle page_goto page_evaluate
       page_query_selector_all handle_get_attribute url0 i)
    (fun _ => scrolled (S n)) logged.
Proof.
  assert (Hl : forall m l, scrolled m l -> logged l)
    by (intros m l [H _]; exact H).
  assert (Hkeep : forall A (m : M World A),
            ends (scrolled (S n)) (lift m) (fun _ => scrolled (S n)) logged).
  { intros A m. eapply ends_weaken; [apply (ends_lift (scrolled (S n))) | | |];
      eauto. }
  unfold scroll_round.
  apply (ends_bind _ (fun _ => scrolled n)).
  { eapply ends_weaken; [apply (ends_lift (scrolled n)) | | |]; eauto. }
  intros _.
  apply (ends_bind _ (fun _ => scrolled (S n))).
  { apply ends_set. intros l [Hc Hs]. split; [exact Hc|].
    cbn [incr_scrolls l_scrolls]. lia. }
  intros _.
  apply (ends_bind _ (fun _ => scrolled (S n))); [apply Hkeep|].
  intros [|first rest]; [now apply ends_ret|].
  destruct (i <? 2); [|now apply ends_ret].
  unfold try_pass.
  apply (ends_try _ _ (scrolled (S n))); [|intros _; now apply ends_ret].
  apply (ends_bind _ (fun _ => scrolled (S n))); [apply ends_lift|].
  intros [[|ch u]|]; try (now apply ends_ret).
  apply (ends_bind _ (fun a l => a = l /\ scrolled (S n) l));
    [apply ends_locals|].
  intros l.
  destruct (negb (mem (urljoin url0 (String ch u)) (pages_visited l))).
  - apply (ends_bind _ (fun _ => scrolled (S n))).
    + apply ends_set. intros l1 [_ H]. exact H.
    + intros _. apply ends_lift.
  - apply ends_ret. intros l1 [_ H]; exact H.
Qed.

(** The click log of [_js_scrape_for_interactions] holds the tab marker, up
    to three times, then at most one load-more selector.  A result without
    an error has scrolled exactly three times; otherwise the one error says
    which exception ended the interaction. *)
Theorem interaction_log_shape (w w' : World) (html : string)
  (m : Meta) (errs : list ScrapeError) (inter : Interactions) :
  _js_scrape_for_interactions HTMLParser urljoin World Handle new_page
    page_goto page_content page_title page_get_attribute page_close
    page_evaluate page_query_selector page_query_selector_all handle_click
    handle_get_attribute url0 w = (Ok (html, m, errs, inter), w') ->
  click_log (clicks inter) /\
  (errs = [] /\ scrolls inter = 3 \/
   exists e,
     errs = [mkError ("Interaction error: " ++ str_exn e)%string render]).
Proof.
  unfold _js_scrape_for_interactions. intros H.
  apply bind_ok_inv in H as ([] & w1 & _ & H).
  unfold with_locals in H.
  match type of H with
  | context [try_except ?body ?handler] =>
      assert (T : ends (tabs_only 0) (try_except body handler)
                    (fun r _ => reported r) (fun _ => True))
  end.
  { apply (ends_try _ _ logged).
    - apply (ends_bind _ (fun _ => tabs_only 0)).
      { eapply ends_weaken; [apply (ends_lift (tabs_only 0)) | | |]; auto.
        intros l; apply tabs_only_logged; lia. }
      intros _.
      apply (ends_bind _ (fun _ => tabs_only 0)).
      { eapply ends_weaken; [apply (ends_lift (tabs_only 0)) | | |]; auto.
        intros l; apply tabs_only_logged; lia. }
      intros tabs.
      apply (ends_bind _ (fun _ => tabs_only 3)).
      { eapply ends_weaken; [apply click_tabs_log | | |]; auto.
        intros l; apply tabs_only_logged; lia. }
      intros _.
      apply (ends_bind _ (fun _ => scrolled 0)).
      { apply click_load_more_ends. apply incl_refl. }
      intros _.
      apply (ends_bind _ (fun _ => scrolled 3)).
      { cbn [for_each].
        apply (ends_bind _ (fun _ => scrolled 1)); [apply scroll_round_log|].
        intros _.
        apply (ends_bind _ (fun _ => scrolled 2)); [apply scroll_round_log|].
        intros _.
        apply (ends_bind _ (fun _ => scrolled 3)); [apply scroll_round_log|].
        intros _. now apply ends_ret. }
      intros _.
      assert (Hkeep : forall A (m : M World A),
                ends (scrolled 3) (lift m) (fun _ => scrolled 3) logged).
      { intros A m0.
        eapply ends_weaken; [apply (ends_lift (scrolled 3)) | | |]; auto.
        intros l [Hl _]; exact Hl. }
      apply (ends_bind _ (fun _ => scrolled 3)); [apply Hkeep|].
      intros html1.
      apply (ends_bind _ (fun _ => scrolled 3)); [apply Hkeep|].
      intros m1.
      apply (ends_bind _ (fun a l => a = l /\ scrolled 3 l)).
      { apply ends_locals. }
      intros l.
      apply (ends_bind _ (fun _ l1 => l = l1 /\ scrolled 3 l1)).
      { eapply ends_weaken;
          [apply (ends_lift (fun l1 => l = l1 /\ scrolled 3 l1)) | | |];
          auto.
        intros l1 [_ [Hl _]]; exact Hl. }
      intros _. apply ends_ret. intros l1 [-> [Hc Hs]].
      split; [exact Hc|]. left. split; [reflexivity | exact Hs].
    - intros e.
      apply (ends_bind _ (fun _ => logged)) with (E := fun _ => True).
      { unfold harvest.
        apply (ends_try _ _ logged).
        - apply (ends_bind _ (fun _ => logged)); [apply ends_lift|].
          intros html1.
          apply (ends_bind _ (fun _ => logged)); [apply ends_lift|].
          intros m1. now apply ends_ret.
        - intros _. now apply ends_ret. }
      intros [html1 m1].
      apply (ends_bind _ (fun a l => a = l /\ logged l)).
      { apply ends_locals. }
      intros l.
      apply (ends_bind _ (fun _ l1 => l = l1 /\ logged l1)).
      { eapply ends_weaken;
          [apply (ends_lift (fun l1 => l = l1 /\ logged l1)) | | |]; auto. }
      intros _. apply ends_ret. intros l1 [-> Hc].
      split; [exact Hc|]. right. exists e. reflexivity. }
  specialize (T (mkLocals [] 0 [url0]) w1).
  match type of H with
  | context [match ?x with _ => _ end] => destruct x as [r [l1 w2]] eqn:E
  end.
  injection H as -> _.
  apply T. split; [|reflexivity]. exists 0; split; [lia | reflexivity].
Qed.

End ClickLog.

Lemma interaction_log_shape_witness :
  exists html m errs inter w',
    BusySim.js_scrape_for_interactions Examples.catalogue
      "http://shop.example/1" (Examples.up Examples.catalogue)
    = (Ok (html, m, errs, inter), w') /\
    click_log (clicks inter) /\
    (errs = [] /\ scrolls inter = 3 \/
     exists e,
       errs = [mkError ("Interaction error: " ++ str_exn e)%string render]).
Proof.
  do 5 eexists; split; [vm_compute; reflexivity|].
  eapply (interaction_log_shape
            (Sim.HTMLParser Examples.catalogue) Sim.urljoin Sim.World
            Sim.Handle Sim.new_page Sim.page_goto Sim.page_content
            Sim.page_title Sim.page_get_attribute Sim.page_close
            Sim.page_evaluate BusySim.page_query_selector
            BusySim.page_query_selector_all BusySim.handle_click
            Sim.handle_get_attribute "http://shop.example/1"
            (Examples.up Examples.catalogue)).
  vm_compute; reflexivity.
Defined.

(* ================================================================= *)
(** ** The browser session *)

Section SessionProperties.

Variable World : Type.
Variables Browser Page Playwright : Type.
Variable playwright_start : M World Playwright.
Variable chromium_launch : Playwright -> M World Browser.
Variable close_page : Page -> M World unit.
Variable browser_close : Browser -> M World unit.
Variable playwright_stop : Playwright -> M World unit.

Local Abbreviation Self := (Scraper Browser Page Playwright).
Local Abbreviation the_browser :=
  (get_browser World Browser Page Playwright playwright_start
     chromium_launch).
Local Abbreviation clean :=
  (cleanup World Browser Page Playwright close_page browser_close
     playwright_stop).

(** What a call of [get_browser] does to a scraper without a browser. *)
Lemma get_browser_unset (self : Self) (w : World) :
  browser self = None ->
  the_browser (self, w) =
    match playwright_start w with
    | (Ok p, w1) =>
        match chromium_launch p w1 with
        | (Ok b, w2) =>
            (Ok b, (set_browser _ _ _ b (set_playwright _ _ _ p self), w2))
        | (Raise e, w2) => (Raise e, (set_playwright _ _ _ p self, w2))
        end
    | (Raise e, w1) => (Raise e, (self, w1))
    end.
Proof.
  intros Hb. unfold get_browser, bind, locals, lift, set_locals, ret.
  cbn [fst snd]. rewrite Hb. cbn [fst snd].
  destruct (playwright_start w) as [[p|e] w1]; [|reflexivity].
  cbv beta iota; cbn [fst snd].
  destruct (chromium_launch p w1) as [[b|e] w2]; reflexivity.
Qed.

(** Once [get_browser] has returned a browser, every later call returns the
    same browser and launches nothing. *)
Theorem get_browser_launches_once (self self' : Self) (w w' : World)
  (b : Browser) :
  the_browser (self, w) = (Ok b, (self', w')) ->
  forall w2, the_browser (self', w2) = (Ok b, (self', w2)).
Proof.
  intros H w2.
  assert (Hb : browser self' = Some b).
  { destruct (browser self) as [b0|] eqn:Hb.
    - unfold get_browser, bind, locals, ret in H. cbn [fst snd] in H.
      rewrite Hb in H. injection H as <- <- _. exact Hb.
    - rewrite (get_browser_unset self w Hb) in H.
      destruct (playwright_start w) as [[p|e] w1]; [|discriminate].
      destruct (chromium_launch p w1) as [[b1|e] w3]; [|discriminate].
      injection H as <- <- _. reflexivity. }
  unfold get_browser, bind, locals, ret. cbn [fst snd]. now rewrite Hb.
Qed.

(** A launch that fails leaves the started Playwright behind, and the next
    call starts another: after two failed launches [cleanup] stops the
    second Playwright only, and the first is never stopped. *)
Theorem failed_launch_leaks_playwright (w w1 w2 w3 w4 : World)
  (p1 p2 : Playwright) (e1 e2 : exn) :
  playwright_start w = (Ok p1, w1) ->
  chromium_launch p1 w1 = (Raise e1, w2) ->
  playwright_start w2 = (Ok p2, w3) ->
  chromium_launch p2 w3 = (Raise e2, w4) ->
  let self1 := mkScraper None None (Some p1) in
  let self2 := mkScraper None None (Some p2) in
  the_browser (init Browser Page Playwright, w) = (Raise e1, (self1, w2)) /\
  the_browser (self1, w2) = (Raise e2, (self2, w4)) /\
  forall w5, clean (self2, w5) = lift (playwright_stop p2) (self2, w5).
Proof.
  intros Hs1 Hl1 Hs2 Hl2. cbv zeta. split; [|split].
  - rewrite get_browser_unset by reflexivity. now rewrite Hs1, Hl1.
  - rewrite get_browser_unset by reflexivity. now rewrite Hs2, Hl2.
  - intros w5. unfold cleanup, bind, locals, if_set, ret.
    cbn [fst snd page browser playwright]. reflexivity.
Qed.

End SessionProperties.

Lemma get_browser_launches_once_witness :
  let w := LaunchSim.mkWorld true 0 [] in
  exists self' w',
    LaunchSim.get_browser (init nat unit nat, w) = (Ok 0, (self', w')) /\
    LaunchSim.log w' = ["start"; "launch"] /\
    forall w2, LaunchSim.get_browser (self', w2) = (Ok 0, (self', w2)).
Proof.
  cbv zeta. do 2 eexists. split; [vm_compute; reflexivity|].
  split; [reflexivity|].
  eapply (get_browser_launches_once LaunchSim.World nat unit nat
            LaunchSim.playwright_start LaunchSim.chromium_launch
            (init nat unit nat) _ (LaunchSim.mkWorld true 0 [])).
  vm_compute; reflexivity.
Defined.

Lemma failed_launch_leaks_playwright_witness :
  let w := LaunchSim.mkWorld false 0 [] in
  let w2 := LaunchSim.mkWorld false 1 ["start"] in
  let w4 := LaunchSim.mkWorld false 2 ["start"; "start"] in
  let self1 := mkScraper None None (Some 0) in
  let self2 := mkScraper None None (Some 1) in
  LaunchSim.get_browser (init nat unit nat, w)
    = (Raise (Exception "Executable does not exist"), (self1, w2)) /\
  LaunchSim.get_browser (self1, w2)
    = (Raise (Exception "Executable does not exist"), (self2, w4)) /\
  forall w5,
    LaunchSim.cleanup (self2, w5)
    = lift (LaunchSim.playwright_stop 1) (self2, w5).
Proof.
  cbv zeta.
  apply (failed_launch_leaks_playwright LaunchSim.World nat unit nat
           LaunchSim.playwright_start LaunchSim.chromium_launch
           LaunchSim.close_page LaunchSim.browser_close
           LaunchSim.playwright_stop
           (LaunchSim.mkWorld false 0 [])
           (LaunchSim.mkWorld false 1 ["start"])
           (LaunchSim.mkWorld false 1 ["start"])
           (LaunchSim.mkWorld false 2 ["start"; "start"])
           (LaunchSim.mkWorld false 2 ["start"; "start"])
           0 1 (Exception "Executable does not exist")
           (Exception "Executable does not exist"));
    reflexivity.
Defined.

(* ================================================================= *)
(** ** The endpoint *)

Section Endpoint.

Variable World : Type.
Variable scrape_url : string -> M World ScrapeResult.
Variable str_http : N -> string -> string.

Local Abbreviation endpoint := (scrape_endpoint World scrape_url str_http).

(** Every exception that leaves the handler is an [HTTPException] with the
    status 500: the status 400 of the handler's own check is never the
    answer. *)
Theorem endpoint_failures_are_500 (request_url : string) (w w' : World)
  (e : raised) :
  endpoint request_url w = (Raised e, w') ->
  exists detail, e = HTTPException 500 detail.
Proof.
  unfold scrape_endpoint.
  destruct (scrape_body World scrape_url request_url w) as [[r|e0] w1];
    intros H; [discriminate|].
  injection H as <- _. eexists; reflexivity.
Qed.

(** A URL with another scheme is rejected without a call of [scrape_url],
    and the rejection reaches the client as the status 500, its detail the
    text of the exception with the status 400. *)
Theorem endpoint_rejects_other_schemes (request_url : string) (w : World) :
  String.prefix "http://" request_url = false ->
  String.prefix "https://" request_url = false ->
  endpoint request_url w =
    (Raised
       (HTTPException 500
          (str_http 400 "Only http:// and https:// URLs are supported")),
     w).
Proof.
  intros H1 H2. unfold scrape_endpoint, scrape_body, startswith.
  cbn [existsb]. rewrite H1, H2. reflexivity.
Qed.

(** A result the handler returns is the result [scrape_url] returned for
    that URL, which starts with one of the two schemes. *)
Theorem endpoint_returns_what_scrape_url_returns (request_url : string)
  (w w' : World) (result : ScrapeResult) :
  endpoint request_url w = (Returned result, w') ->
  (String.prefix "http://" request_url = true \/
   String.prefix "https://" request_url = true) /\
  scrape_url request_url w = (Ok result, w').
Proof.
  unfold scrape_endpoint, scrape_body, startswith. cbn [existsb].
  destruct (String.prefix "http://" request_url) eqn:H1;
    destruct (String.prefix "https://" request_url) eqn:H2;
    cbn [orb negb]; try discriminate;
    (destruct (scrape_url request_url w) as [[r|e] w1];
     intros H; [|discriminate]; injection H as <- <-; split; auto).
Qed.

End Endpoint.

Lemma endpoint_failures_are_500_witness :
  exists e w',
    scrape_endpoint Sim.World (Sim.run [Examples.valueless_page])
      (fun _ d => d) "http://bare.example/"
      (Examples.up [Examples.valueless_page]) = (Raised e, w') /\
    exists detail, e = HTTPException 500 detail.
Proof.
  do 2 eexists. split; [vm_compute; reflexivity|].
  eapply (endpoint_failures_are_500 Sim.World
            (Sim.run [Examples.valueless_page]) (fun _ d => d)
            "http://bare.example/" (Examples.up [Examples.valueless_page])).
  vm_compute; reflexivity.
Defined.

Lemma endpoint_rejects_other_schemes_witness :
  scrape_endpoint Sim.World (Sim.run [Examples.main_page]) (fun _ d => d)
    "ftp://docs.example/" (Examples.up [Examples.main_page])
  = (Raised
       (HTTPException 500 "Only http:// and https:// URLs are supported"),
     Examples.up [Examples.main_page]).
Proof.
  apply (endpoint_rejects_other_schemes Sim.World
           (Sim.run [Examples.main_page]) (fun _ d => d)
           "ftp://docs.example/" (Examples.up [Examples.main_page]));
    reflexivity.
Defined.

Lemma endpoint_returns_what_scrape_url_returns_witness :
  exists result w',
    scrape_endpoint Sim.World (Sim.run [Examples.main_page]) (fun _ d => d)
      "http://docs.example/" (Examples.up [Examples.main_page])
    = (Returned result, w') /\
    (String.prefix "http://" "http://docs.example/" = true \/
     String.prefix "https://" "http://docs.example/" = true) /\
    Sim.run [Examples.main_page] "http://docs.example/"
      (Examples.up [Examples.main_page]) = (Ok result, w').
Proof.
  do 2 eexists. split; [vm_compute; reflexivity|].
  eapply (endpoint_returns_what_scrape_url_returns Sim.World
            (Sim.run [Examples.main_page]) (fun _ d => d)
            "http://docs.example/" (Examples.up [Examples.main_page])).
  vm_compute; reflexivity.
Defined.
